(** * The predicate-expression engine of [expr_parser_test2.ipynb]

    A shallow embedding of the class [Expr] of the notebook: the clause
    pattern handed to [re.match], the literal evaluation through [eval],
    the field lookup through [pydash.get], Python's comparison operators,
    the splitter [split_on_logical_ops] and the fold of [Expr.test].

    Text is modelled as lists of 8-bit characters (ASCII text); the values
    of the tested object are [None], booleans, integers, floats, strings,
    lists and string-keyed dictionaries. *)

From Stdlib Require Import Ascii String.
From Stdlib Require Import List ZArith Bool Arith Lia.

#[local] Set Warnings "-register-all".
Import ListNotations.

Local Open Scope list_scope.
Local Open Scope bool_scope.

(* ================================================================== *)
(** ** Text *)

Definition str := list ascii.

(** The text of a literal that holds no double quote. *)
Definition s (x : string) : str := list_ascii_of_string x.

Definition dquote : ascii := ascii_of_nat 34.
Definition squote : ascii := ascii_of_nat 39.
Definition newline : ascii := ascii_of_nat 10.
Definition backslash : ascii := ascii_of_nat 92.

Definition code (c : ascii) : nat := nat_of_ascii c.

Definition between (lo hi : nat) (c : ascii) : bool :=
  (lo <=? code c) && (code c <=? hi).

Definition is_digit (c : ascii) : bool := between 48 57 c.
Definition is_lower (c : ascii) : bool := between 97 122 c.
Definition is_upper (c : ascii) : bool := between 65 90 c.
Definition is_alpha (c : ascii) : bool := is_lower c || is_upper c.

(** [str.isspace] and the class [\s] on ASCII text: tab, line feed, vertical
    tab, form feed, carriage return, the four separators 28..31 and space. *)
Definition is_space (c : ascii) : bool :=
  between 9 13 c || between 28 32 c.

(** The class [\w] on ASCII text. *)
Definition is_word (c : ascii) : bool :=
  is_alpha c || is_digit c || Ascii.eqb c "_".

(** The class [[\w\.]]. *)
Definition is_word_or_dot (c : ascii) : bool :=
  is_word c || Ascii.eqb c ".".

(** The class [.] (no DOTALL flag): anything but a line feed. *)
Definition is_not_newline (c : ascii) : bool := negb (Ascii.eqb c newline).

(** The splitter's test that [char] is one of the two quote characters. *)
Definition is_quote (c : ascii) : bool :=
  Ascii.eqb c dquote || Ascii.eqb c squote.

Definition upper_char (c : ascii) : ascii :=
  if is_lower c then ascii_of_nat (code c - 32) else c.

(** [x.upper()] *)
Definition upper (x : str) : str := map upper_char x.

Fixpoint str_eqb (x y : str) : bool :=
  match x, y with
  | [], [] => true
  | a :: x', b :: y' => Ascii.eqb a b && str_eqb x' y'
  | _, _ => false
  end.

(** [x.startswith(p)], here with the remainder of [x] behind the prefix. *)
Fixpoint strip_prefix (p x : str) : option str :=
  match p, x with
  | [], _ => Some x
  | a :: p', b :: x' => if Ascii.eqb a b then strip_prefix p' x' else None
  | _ :: _, [] => None
  end.

(** [p in x] *)
Fixpoint contains (p x : str) : bool :=
  match strip_prefix p x with
  | Some _ => true
  | None => match x with
            | [] => false
            | _ :: x' => contains p x'
            end
  end.

(** [x[a:b]] for indices that are not negative: empty when [b <= a], cut at
    the end of [x]. *)
Definition slice (x : str) (a b : nat) : str := firstn (b - a) (skipn a x).

(** [x[a:]] *)
Definition slice_from (x : str) (a : nat) : str := skipn a x.

Fixpoint lstrip (x : str) : str :=
  match x with
  | c :: x' => if is_space c then lstrip x' else x
  | [] => []
  end.

Definition rstrip (x : str) : str := rev (lstrip (rev x)).

(** [x.strip()] *)
Definition strip (x : str) : str := rstrip (lstrip x).

(* ================================================================== *)
(** ** Outcomes of a Python computation *)

(** The exceptions the code raises or meets, and any other one by the name
    of its class. *)
Inductive exn : Type :=
| ValueError (msg : str)
| TypeError
| NameError
| SyntaxError
| IndexError
| OtherError (class_name : str).

(** A computation returns, raises, or leaves the part of the Python
    runtime that this development models ([Beyond]): nothing is claimed
    about what the program does there. *)
Inductive outcome (A : Type) : Type :=
| Ret (a : A)
| Raise (e : exn)
| Beyond.

Arguments Ret {A} a.
Arguments Raise {A} e.
Arguments Beyond {A}.

Definition obind {A B : Type} (m : outcome A) (k : A -> outcome B) : outcome B :=
  match m with
  | Ret a => k a
  | Raise e => Raise e
  | Beyond => Beyond
  end.

(* ================================================================== *)
(** ** Values *)

(** A float, by its value: not a number, an infinity, or the number
    [m * 2 ^ e] (every finite double is one). *)
Inductive pyfloat : Type :=
| FNan
| FInf (negative : bool)
| FFinite (m e : Z).

Inductive pyobj : Type :=
| VNone
| VBool (b : bool)
| VInt (z : Z)
| VFloat (f : pyfloat)
| VStr (x : str)
| VList (l : list pyobj)
| VDict (kvs : list (str * pyobj)).

(** [d.get(k)] on a dictionary given by its items. *)
Fixpoint dict_get (k : str) (kvs : list (str * pyobj)) : option pyobj :=
  match kvs with
  | [] => None
  | (k', v) :: rest => if str_eqb k k' then Some v else dict_get k rest
  end.

(** Booleans are integers in Python: [True == 1], [False < 1]. *)
Definition as_number (v : pyobj) : option Z :=
  match v with
  | VBool b => Some (if b then 1%Z else 0%Z)
  | VInt z => Some z
  | _ => None
  end.

(** The order of two floats by their values; not a number is ordered with
    nothing. *)
Definition float_compare (x y : pyfloat) : option comparison :=
  match x, y with
  | FNan, _ | _, FNan => None
  | FInf a, FInf b =>
      Some (match a, b with
            | true, false => Lt
            | false, true => Gt
            | _, _ => Eq
            end)
  | FInf a, FFinite _ _ => Some (if a then Lt else Gt)
  | FFinite _ _, FInf b => Some (if b then Gt else Lt)
  | FFinite m1 e1, FFinite m2 e2 =>
      let e := Z.min e1 e2 in
      Some (Z.compare (m1 * 2 ^ (e1 - e)) (m2 * 2 ^ (e2 - e)))
  end.

(** A number as a float of the same value: Python compares an integer with
    a float by their exact values. *)
Definition as_float (v : pyobj) : option pyfloat :=
  match v with
  | VBool b => Some (FFinite (if b then 1 else 0) 0)
  | VInt z => Some (FFinite z 0)
  | VFloat f => Some f
  | _ => None
  end.

(** Equality of two numbers of which one is a float. *)
Definition float_eq (a b : pyobj) : bool :=
  match as_float a, as_float b with
  | Some x, Some y =>
      match float_compare x y with
      | Some Eq => true
      | _ => false
      end
  | _, _ => false
  end.

(** [a == b] on the values above; it never raises. Dictionaries are equal
    when they have as many items and every item of the first is matched in
    the second. *)
Fixpoint py_eq (a b : pyobj) {struct a} : bool :=
  match a, b with
  | VNone, VNone => true
  | VBool x, (VBool _ | VInt _) =>
      match as_number b with
      | Some n => Z.eqb (if x then 1 else 0) n
      | None => false
      end
  | VInt x, (VBool _ | VInt _) =>
      match as_number b with
      | Some n => Z.eqb x n
      | None => false
      end
  | (VBool _ | VInt _), VFloat _ => float_eq a b
  | VFloat _, (VBool _ | VInt _ | VFloat _) => float_eq a b
  | VStr x, VStr y => str_eqb x y
  | VList xs, VList ys =>
      (fix items (xs ys : list pyobj) {struct xs} : bool :=
         match xs, ys with
         | [], [] => true
         | x :: xs', y :: ys' => py_eq x y && items xs' ys'
         | _, _ => false
         end) xs ys
  | VDict xs, VDict ys =>
      Nat.eqb (length xs) (length ys) &&
      (fix items (xs : list (str * pyobj)) {struct xs} : bool :=
         match xs with
         | [] => true
         | (k, v) :: xs' =>
             match dict_get k ys with
             | Some w => py_eq v w && items xs'
             | None => false
             end
         end) xs
  | _, _ => false
  end.

(** [a != b] *)
Definition py_ne (a b : pyobj) : bool := negb (py_eq a b).

(** Lexicographic order of two strings by character code. *)
Fixpoint str_compare (x y : str) : comparison :=
  match x, y with
  | [], [] => Eq
  | [], _ :: _ => Lt
  | _ :: _, [] => Gt
  | a :: x', b :: y' =>
      match Nat.compare (code a) (code b) with
      | Eq => str_compare x' y'
      | c => c
      end
  end.

(** The four ordering operators, as the test each makes on a three-way
    comparison. *)
Inductive order_op : Type := OpGt | OpLt | OpGe | OpLe.

Definition holds (op : order_op) (c : comparison) : bool :=
  match op, c with
  | OpGt, Gt => true
  | OpLt, Lt => true
  | OpGe, (Gt | Eq) => true
  | OpLe, (Lt | Eq) => true
  | _, _ => false
  end.

(** An ordering of two numbers of which one is a float: false when one is
    not a number. *)
Definition float_order (op : order_op) (a b : pyobj) : outcome bool :=
  match as_float a, as_float b with
  | Some x, Some y =>
      match float_compare x y with
      | Some c => Ret (holds op c)
      | None => Ret false
      end
  | _, _ => Raise TypeError
  end.

(** [a > b], [a < b], [a >= b], [a <= b]: numbers with numbers, strings
    with strings, lists with lists (decided by the first pair of items that
    are not equal, else by the lengths); anything else is a [TypeError]. *)
Fixpoint py_order (op : order_op) (a b : pyobj) {struct a} : outcome bool :=
  match a, b with
  | (VBool _ | VInt _), (VBool _ | VInt _) =>
      match as_number a, as_number b with
      | Some x, Some y => Ret (holds op (Z.compare x y))
      | _, _ => Raise TypeError
      end
  | (VBool _ | VInt _), VFloat _ => float_order op a b
  | VFloat _, (VBool _ | VInt _ | VFloat _) => float_order op a b
  | VStr x, VStr y => Ret (holds op (str_compare x y))
  | VList xs, VList ys =>
      (fix items (xs ys : list pyobj) {struct xs} : outcome bool :=
         match xs, ys with
         | x :: xs', y :: ys' =>
             if py_eq x y then items xs' ys' else py_order op x y
         | _, _ => Ret (holds op (Nat.compare (length xs) (length ys)))
         end) xs ys
  | _, _ => Raise TypeError
  end.

(* ================================================================== *)
(** ** The clause pattern

    [r'\$\.([\w\.]+)\s*(==|!=|>|<|>=|<=)\s*(.+)'], matched by [re.match] at
    the start of the text. A pattern is modelled by the list of the ways it
    matches at the head of a text, in the order in which the backtracking
    matcher tries them, each with the text it matched and the text that is
    left; [re.match] returns the first way the whole pattern matches. *)

Definition ways : Type := list (str * str).

Definition push (c : ascii) (w : str * str) : str * str := (c :: fst w, snd w).

(** [p*], greedy: the longest run first, the empty run last. *)
Fixpoint greedy_star (p : ascii -> bool) (x : str) : ways :=
  match x with
  | c :: x' =>
      if p c then map (push c) (greedy_star p x') ++ [([], x)] else [([], x)]
  | [] => [([], [])]
  end.

(** [p+], greedy. *)
Definition greedy_plus (p : ascii -> bool) (x : str) : ways :=
  match x with
  | c :: x' => if p c then map (push c) (greedy_star p x') else []
  | [] => []
  end.

Definition literal (p x : str) : ways :=
  match strip_prefix p x with
  | Some rest => [(p, rest)]
  | None => []
  end.

(** [(p1|p2|...)]: the alternatives are tried from left to right. *)
Definition alternation (ps : list str) (x : str) : ways :=
  flat_map (fun p => literal p x) ps.

Definition comparison_operators : list str :=
  [s "=="; s "!="; s ">"; s "<"; s ">="; s "<="].

(** All the ways the pattern matches, as (field, operator, value). *)
Definition pattern_ways (x : str) : list (str * str * str) :=
  flat_map (fun w0 =>
  flat_map (fun w1 =>
  flat_map (fun w2 =>
  flat_map (fun w3 =>
  flat_map (fun w4 =>
  map (fun w5 => (fst w1, fst w3, fst w5))
      (greedy_plus is_not_newline (snd w4)))
      (greedy_star is_space (snd w3)))
      (alternation comparison_operators (snd w2)))
      (greedy_star is_space (snd w1)))
      (greedy_plus is_word_or_dot (snd w0)))
      (literal (s "$.") x).

(** [re.match(pattern, x)] with [match.groups()]: [None] when there is no
    match. *)
Definition re_match (x : str) : option (str * str * str) :=
  hd_error (pattern_ways x).

(* ================================================================== *)
(** ** The literal evaluator

    [eval(value, {"__builtins__": {}}, {})] is Python's own evaluator. It is
    modelled on a fragment of the expression syntax, over printable ASCII
    text: one string literal without escapes, a name, a decimal integer or
    a float in digits with an optional minus sign, the sum of two decimal
    integers, and text that starts with the assignment sign (no expression
    does: a syntax error). On any other text the model answers [Beyond]. *)

Definition is_printable (c : ascii) : bool := between 32 126 c.

(** A string literal opened by [q], given the text behind the opening
    quote. Without a closing quote the literal is unterminated, which is a
    syntax error; text behind the closing quote (concatenation, operators,
    triple quotes) is outside the fragment, and so are escapes. *)
Fixpoint string_literal (q : ascii) (rest : str) : outcome str :=
  match rest with
  | [] => Raise SyntaxError
  | c :: rest' =>
      if Ascii.eqb c backslash then Beyond
      else if Ascii.eqb c q then
        match rest' with
        | [] => Ret []
        | _ :: _ => Beyond
        end
      else obind (string_literal q rest') (fun body => Ret (c :: body))
  end.

Definition is_identifier (t : str) : bool :=
  match t with
  | [] => false
  | c :: rest => (is_alpha c || Ascii.eqb c "_") && forallb is_word rest
  end.

(** The reserved words of Python 3 other than [True], [False] and [None]:
    as an expression each is a syntax error. *)
Definition keywords : list str :=
  map s ["and"; "as"; "assert"; "async"; "await"; "break"; "class";
         "continue"; "def"; "del"; "elif"; "else"; "except"; "finally";
         "for"; "from"; "global"; "if"; "import"; "in"; "is"; "lambda";
         "nonlocal"; "not"; "or"; "pass"; "raise"; "return"; "try";
         "while"; "with"; "yield"]%string.

Definition namespace : Type := list (str * pyobj).

(** A name: the three constants, then the local names, the global names and
    the names of the dictionary under [__builtins__]; a name found nowhere
    is a [NameError]. [__debug__] depends on how the interpreter was started
    and is left out. *)
Definition eval_name (globals locals : namespace) (t : str) : outcome pyobj :=
  if str_eqb t (s "True") then Ret (VBool true)
  else if str_eqb t (s "False") then Ret (VBool false)
  else if str_eqb t (s "None") then Ret VNone
  else if str_eqb t (s "__debug__") then Beyond
  else if existsb (str_eqb t) keywords then Raise SyntaxError
  else
    match dict_get t locals with
    | Some v => Ret v
    | None =>
        match dict_get t globals with
        | Some v => Ret v
        | None =>
            match dict_get (s "__builtins__") globals with
            | Some (VDict builtins) =>
                match dict_get t builtins with
                | Some v => Ret v
                | None => Raise NameError
                end
            | _ => Beyond
            end
        end
    end.

Definition digit_value (c : ascii) : Z := Z.of_nat (code c - 48).

Definition decimal_value (t : str) : Z :=
  fold_left (fun acc c => (10 * acc + digit_value c)%Z) t 0%Z.

(** The longest integer literal every Python 3 accepts (from 3.11 on a
    longer one is refused). *)
Definition max_str_digits : nat := 4300.

(** A decimal integer literal: a run of zeros is [0], a nonzero number must
    not start with a zero. *)
Definition int_literal (t : str) : outcome Z :=
  match t with
  | [] => Beyond
  | c :: _ =>
      if negb (forallb is_digit t) then Beyond
      else if max_str_digits <? length t then Beyond
      else if forallb (Ascii.eqb "0") t then Ret 0%Z
      else if Ascii.eqb c "0" then Raise SyntaxError
      else Ret (decimal_value t)
  end.

(** The largest power of two below which every integer is a double, and
    the most binary places a double has. *)
Definition max_mantissa : Z := 2 ^ 53.
Definition max_places : nat := 1074.

(** A float literal [whole.frac] in digits, when its value is a double as it
    stands; a literal that Python would have to round is outside the
    fragment. The value [N / 10 ^ k] is [(N / 5 ^ k) * 2 ^ (- k)]. *)
Definition float_literal (whole frac : str) : outcome pyfloat :=
  match whole, frac with
  | _ :: _, _ :: _ =>
      if forallb is_digit whole && forallb is_digit frac then
        let N := decimal_value (whole ++ frac) in
        let k := length frac in
        let p := (5 ^ Z.of_nat k)%Z in
        if (k <=? max_places) && (N mod p =? 0)%Z && (N / p <? max_mantissa)%Z
        then Ret (FFinite (N / p) (- Z.of_nat k))
        else Beyond
      else Beyond
  | _, _ => Beyond
  end.

(** [x.partition(sep)]: the text before the first [sep] and the text behind
    it, when there is one. *)
Fixpoint partition_at (sep : ascii) (x : str) : option (str * str) :=
  match x with
  | [] => None
  | c :: x' =>
      if Ascii.eqb c sep then Some ([], x')
      else match partition_at sep x' with
           | Some (l, r) => Some (c :: l, r)
           | None => None
           end
  end.

(** A number without sign: an integer, or a float when there is a point. *)
Definition number_literal (t : str) : outcome pyobj :=
  match partition_at "." t with
  | None => obind (int_literal t) (fun z => Ret (VInt z))
  | Some (whole, frac) =>
      obind (float_literal whole frac) (fun f => Ret (VFloat f))
  end.

(** [- v] on a number. *)
Definition negative (v : pyobj) : outcome pyobj :=
  match v with
  | VInt z => Ret (VInt (- z))
  | VFloat (FFinite m e) => Ret (VFloat (FFinite (- m) e))
  | _ => Beyond
  end.

Definition py_eval (t : str) (globals locals : namespace) : outcome pyobj :=
  if negb (forallb is_printable t) then Beyond
  else
    match t with
    | [] => Beyond
    | c :: rest =>
        if is_quote c then obind (string_literal c rest) (fun x => Ret (VStr x))
        else if is_identifier t then eval_name globals locals t
        else if Ascii.eqb c "=" then Raise SyntaxError
        else if Ascii.eqb c "-" then obind (number_literal rest) negative
        else
          match partition_at "+" t with
          | None => number_literal t
          | Some (l, r) =>
              match int_literal l, int_literal r with
              | Beyond, _ | _, Beyond => Beyond
              | Raise e, _ | _, Raise e => Raise e
              | Ret x, Ret y => Ret (VInt (x + y))
              end
          end
    end.

(* ================================================================== *)
(** ** The deep accessor

    [pydash.get(o, field)] on a path of word characters and dots: the path
    is cut at its dots and followed key by key through dictionaries; a key
    that is missing gives the default, [None]. What pydash does with an
    empty key, or with a key applied to something that is not a dictionary
    (attributes, sequence indices), is outside the model. *)

Fixpoint split_at (sep : ascii) (x : str) : list str :=
  match x with
  | [] => [[]]
  | c :: x' =>
      if Ascii.eqb c sep then [] :: split_at sep x'
      else match split_at sep x' with
           | k :: ks => (c :: k) :: ks
           | [] => [[c]]
           end
  end.

Fixpoint deep_get (o : pyobj) (keys : list str) : outcome pyobj :=
  match keys with
  | [] => Ret o
  | k :: ks =>
      match o with
      | VDict kvs =>
          match dict_get k kvs with
          | Some v => deep_get v ks
          | None => Ret VNone
          end
      | _ => Beyond
      end
  end.

Definition pydash_get (o : pyobj) (path : str) : outcome pyobj :=
  let keys := split_at "." path in
  if existsb (str_eqb []) keys then Beyond else deep_get o keys.

(* ================================================================== *)
(** ** [evaluate_comparison] *)

(** [try: eval(value, ...)] with [except: value]: whatever the evaluator
    raises, the text itself is kept as a string. *)
Definition evaluated_value_of (value : str) : outcome pyobj :=
  match py_eval value [(s "__builtins__", VDict [])] [] with
  | Ret v => Ret v
  | Raise _ => Ret (VStr value)
  | Beyond => Beyond
  end.

(** The chain of [if operator == ...] that applies the operator. *)
Definition apply_operator (operator : str) (field_value evaluated_value : pyobj)
  : outcome bool :=
  if str_eqb operator (s "==") then Ret (py_eq field_value evaluated_value)
  else if str_eqb operator (s "!=") then Ret (py_ne field_value evaluated_value)
  else if str_eqb operator (s ">") then py_order OpGt field_value evaluated_value
  else if str_eqb operator (s "<") then py_order OpLt field_value evaluated_value
  else if str_eqb operator (s ">=") then py_order OpGe field_value evaluated_value
  else if str_eqb operator (s "<=") then py_order OpLe field_value evaluated_value
  else Raise (ValueError (s "Unsupported operator: " ++ operator)).

Definition invalid_format (expr : str) : exn :=
  ValueError (s "Invalid expression format: " ++ expr).

Definition evaluate_comparison (o : pyobj) (expr : str) : outcome bool :=
  match re_match (strip expr) with
  | None => Raise (invalid_format expr)
  | Some (field, operator, value) =>
      obind (evaluated_value_of value) (fun evaluated_value =>
      obind (pydash_get o field) (fun field_value =>
      apply_operator operator field_value evaluated_value))
  end.

(** What [evaluate_comparison] does behind the pattern, as a function of
    the three groups: the literal, the field and the operator. *)
Definition compare_step (o : pyobj) (field operator value : str) : outcome bool :=
  obind (evaluated_value_of value) (fun evaluated_value =>
  obind (pydash_get o field) (fun field_value =>
  apply_operator operator field_value evaluated_value)).

(** [evaluate_comparison] with the steps behind the pattern given as
    [compare]: the text is stripped and matched, the format error is raised
    when there is no match, and the groups are handed to [compare]. *)
Definition evaluate_comparison_by
  (compare : str -> str -> str -> outcome bool) (expr : str) : outcome bool :=
  match re_match (strip expr) with
  | None => Raise (invalid_format expr)
  | Some (field, operator, value) => compare field operator value
  end.

(* ================================================================== *)
(** ** [split_on_logical_ops] *)

Record split_state : Type := {
  parts : list str;
  operators : list str;
  last_pos : nat;
  in_quotes : bool
}.

(** One turn of [for i, char in enumerate(expr)]. *)
Definition split_step (expr : str) (i : nat) (char : ascii) (st : split_state)
  : split_state :=
  let quoted := if is_quote char then negb (in_quotes st) else in_quotes st in
  if negb quoted && (i + 5 <=? length expr) then
    if str_eqb (upper (slice expr i (i + 5))) (s " AND ") then
      {| parts := parts st ++ [slice expr (last_pos st) i];
         operators := operators st ++ [s "AND"];
         last_pos := i + 5;
         in_quotes := quoted |}
    else if str_eqb (upper (slice expr i (i + 4))) (s " OR ") then
      {| parts := parts st ++ [slice expr (last_pos st) i];
         operators := operators st ++ [s "OR"];
         last_pos := i + 4;
         in_quotes := quoted |}
    else
      {| parts := parts st; operators := operators st;
         last_pos := last_pos st; in_quotes := quoted |}
  else
    {| parts := parts st; operators := operators st;
       last_pos := last_pos st; in_quotes := quoted |}.

(** The loop from position [i] on, [rest] being [expr[i:]]. *)
Fixpoint split_loop (expr : str) (i : nat) (rest : str) (st : split_state)
  : split_state :=
  match rest with
  | [] => st
  | char :: rest' => split_loop expr (S i) rest' (split_step expr i char st)
  end.

Definition split_start : split_state :=
  {| parts := []; operators := []; last_pos := 0; in_quotes := false |}.

Definition split_on_logical_ops (expr : str) : list str * list str :=
  let st := split_loop expr 0 expr split_start in
  (parts st ++ [slice_from expr (last_pos st)], operators st).

(* ================================================================== *)
(** ** [Expr] *)

Record Expr : Type := { args : str }.

(** [Expr.__init__] *)
Definition Expr_init (a : str) : Expr := {| args := a |}.

(** A run of [test] is followed together with the clauses it hands to
    [evaluate_comparison], in the order of the calls. *)
Definition traced (A : Type) : Type := (list str * outcome A)%type.

Definition tret {A : Type} (a : A) : traced A := ([], Ret a).

Definition traise {A : Type} (e : exn) : traced A := ([], Raise e).

Definition tbind {A B : Type} (m : traced A) (k : A -> traced B) : traced B :=
  match snd m with
  | Ret a => (fst m ++ fst (k a), snd (k a))
  | Raise e => (fst m, Raise e)
  | Beyond => (fst m, Beyond)
  end.

Notation "x <- m ;; k" := (tbind m (fun x => k))
  (at level 61, m at next level, right associativity).

(** How one turn of a loop ends: at the end of its body, at a [continue], or
    at a [break]. *)
Inductive flow : Type := Fall | Continue | Break.

Section Fold.

(** The closure [evaluate_comparison] of one call of [test]. *)
Variable evaluate : str -> outcome bool.

Variable the_parts : list str.
Variable the_operators : list str.

Definition call (expr : str) : traced bool := ([expr], evaluate expr).

(** [evaluate_comparison(parts[j])] *)
Definition call_part (j : nat) : traced bool :=
  match nth_error the_parts j with
  | Some expr => call expr
  | None => traise IndexError
  end.

(** [i+1 < len(operators) and operators[i+1] == 'OR'] *)
Definition next_is_or (i : nat) : bool :=
  (i + 1 <? length the_operators) &&
  match nth_error the_operators (i + 1) with
  | Some op => str_eqb op (s "OR")
  | None => false
  end.

(** The body of [for i, op in enumerate(operators)]. *)
Definition loop_body (i : nat) (op : str) (result : bool) : traced (bool * flow) :=
  if str_eqb op (s "AND") then
    result <- (if result then call_part (i + 1) else tret result) ;;
    if negb result then tret (result, Break) else tret (result, Fall)
  else if str_eqb op (s "OR") then
    result <- (if result then tret result else call_part (i + 1)) ;;
    if result && next_is_or i then tret (result, Continue)
    else tret (result, Fall)
  else tret (result, Fall).

Fixpoint for_loop (i : nat) (todo : list str) (result : bool) : traced bool :=
  match todo with
  | [] => tret result
  | op :: todo' =>
      r <- loop_body i op result ;;
      match snd r with
      | Break => tret (fst r)
      | Fall | Continue => for_loop (S i) todo' (fst r)
      end
  end.

(** The fold whose [OR] case is [result = result or evaluate(...)] and
    nothing more. *)
Definition plain_body (i : nat) (op : str) (result : bool) : traced (bool * flow) :=
  if str_eqb op (s "AND") then
    result <- (if result then call_part (i + 1) else tret result) ;;
    if negb result then tret (result, Break) else tret (result, Fall)
  else if str_eqb op (s "OR") then
    result <- (if result then tret result else call_part (i + 1)) ;;
    tret (result, Fall)
  else tret (result, Fall).

Fixpoint plain_loop (i : nat) (todo : list str) (result : bool) : traced bool :=
  match todo with
  | [] => tret result
  | op :: todo' =>
      r <- plain_body i op result ;;
      match snd r with
      | Break => tret (fst r)
      | Fall | Continue => plain_loop (S i) todo' (fst r)
      end
  end.

End Fold.

(** [Expr.test], with the loop given as a parameter: [for_loop] is the code,
    [plain_loop] the variant. *)
Definition test_with
  (loop : (str -> outcome bool) -> list str -> list str ->
          nat -> list str -> bool -> traced bool)
  (self : Expr) (o : pyobj) : traced bool :=
  if negb (contains (s " AND ") (upper (args self))) &&
     negb (contains (s " OR ") (upper (args self)))
  then call (evaluate_comparison o) (args self)
  else
    let (ps, ops) := split_on_logical_ops (args self) in
    match ps with
    | [] => traise IndexError
    | first :: _ =>
        result <- call (evaluate_comparison o) first ;;
        loop (evaluate_comparison o) ps ops 0 ops result
    end.

Definition Expr_test_traced (self : Expr) (o : pyobj) : traced bool :=
  test_with for_loop self o.

(** [Expr(a).test(o)] *)
Definition Expr_test (self : Expr) (o : pyobj) : outcome bool :=
  snd (Expr_test_traced self o).

(** The clauses a run of [test] evaluates. *)
Definition reached (self : Expr) (o : pyobj) : list str :=
  fst (Expr_test_traced self o).

(** The variant of [test] with the plain [OR] case. *)
Definition Expr_test_plain_traced (self : Expr) (o : pyobj) : traced bool :=
  test_with (fun evaluate ps _ => plain_loop evaluate ps) self o.

(** [Expr.test] with its closure [evaluate_comparison] given as [evaluate]:
    the first [if], the splitter and the fold, whatever the evaluation of a
    clause does. *)
Definition test_by (evaluate : str -> outcome bool) (self : Expr) : traced bool :=
  if negb (contains (s " AND ") (upper (args self))) &&
     negb (contains (s " OR ") (upper (args self)))
  then call evaluate (args self)
  else
    let (ps, ops) := split_on_logical_ops (args self) in
    match ps with
    | [] => traise IndexError
    | first :: _ =>
        result <- call evaluate first ;;
        for_loop evaluate ps ops 0 ops result
    end.

(* ================================================================== *)
(** ** The objects of the notebook *)

Definition quoted (x : string) : str := dquote :: s x ++ [dquote].

Definition test_object : pyobj :=
  VDict [ (s "foo", VStr (s "some value"));
          (s "nested", VDict [(s "field", VInt 123)]);
          (s "active", VBool true);
          (s "count", VInt 10) ].

Definition test_object_extended : pyobj :=
  VDict [ (s "foo", VStr (s "some value"));
          (s "nested", VDict [(s "field", VInt 123)]);
          (s "active", VBool true);
          (s "count", VInt 10);
          (s "role", VStr (s "user"));
          (s "permissions", VList [VStr (s "read"); VStr (s "write")]) ].

Definition expr_complex : str :=
  s "$.foo == " ++ quoted "some value" ++ s " AND $.role == " ++
  quoted "admin" ++ s " OR $.count > 5".


(* ================================================================== *)
(** ** The vocabulary of the specification *)

(** The longest prefix of [x] made of characters in [p], and the rest. *)
Fixpoint span (p : ascii -> bool) (x : str) : str * str :=
  match x with
  | c :: x' => if p c then (c :: fst (span p x'), snd (span p x')) else ([], x)
  | [] => ([], [])
  end.

Definition nonempty (x : str) : bool :=
  match x with [] => false | _ :: _ => true end.

Definition drop_sign (t : str) : str :=
  match t with
  | c :: rest => if Ascii.eqb c "-" || Ascii.eqb c "+" then rest else t
  | [] => []
  end.

(** (a) text in double or in single quotes. *)
Definition is_quoted_text (t : str) : bool :=
  match t, rev t with
  | c :: _ :: _, l :: _ => is_quote c && Ascii.eqb l c
  | _, _ => false
  end.

(** (b) the boolean tokens. *)
Definition is_boolean_token (t : str) : bool :=
  str_eqb t (s "True") || str_eqb t (s "False").

(** (c) the null tokens. *)
Definition is_null_token (t : str) : bool :=
  str_eqb t (s "None") || str_eqb t (s "null").

(** (d) a base-10 integer with an optional leading minus sign. *)
Definition is_integer_text (t : str) : bool :=
  match t with
  | c :: rest =>
      if Ascii.eqb c "-" then nonempty rest && forallb is_digit rest
      else forallb is_digit t
  | [] => false
  end.

(** (e) a floating-point number: sign, digits with an optional point, and
    an optional exponent. *)
Definition is_float_text (t : str) : bool :=
  let (whole, r1) := span is_digit (drop_sign t) in
  let (frac, r2) :=
    match r1 with
    | c :: r => if Ascii.eqb c "." then span is_digit r else ([], r1)
    | [] => ([], [])
    end in
  nonempty (whole ++ frac) &&
  match r2 with
  | [] => true
  | c :: r =>
      (Ascii.eqb c "e" || Ascii.eqb c "E") &&
      nonempty (drop_sign r) && forallb is_digit (drop_sign r)
  end.

(** The text of a typed literal, (a) to (e). *)
Definition typed_literal_text (t : str) : bool :=
  is_quoted_text t || is_boolean_token t || is_null_token t ||
  is_integer_text t || is_float_text t.

(** The grammar of a clause, in the words of the specification: optional
    white space at both ends; the dollar sign and a dot; one or more
    segments of word characters separated by dots; white space; one of the
    six operators; white space; a value, which is the rest. *)
Definition spec_path (path : str) : bool :=
  forallb (fun segment => nonempty segment && forallb is_word segment)
          (split_at "." path).

Definition spec_operator_and_value (rest : str) (operator : str) : bool :=
  match strip_prefix operator rest with
  | Some behind =>
      let (space, value) := span is_space behind in
      nonempty space && nonempty value
  | None => false
  end.

Definition spec_clause (x : str) : bool :=
  match strip_prefix (s "$.") (strip x) with
  | Some rest =>
      let (path, behind) := span is_word_or_dot rest in
      let (space, tail) := span is_space behind in
      spec_path path && nonempty space &&
      existsb (spec_operator_and_value tail) comparison_operators
  | None => false
  end.

(** The types of the specification's literals and structured values. *)
Inductive literal_type : Type :=
| TNull | TBoolean | TInteger | TFloat | TString | TSequence | TMapping.

Definition type_of (v : pyobj) : literal_type :=
  match v with
  | VNone => TNull
  | VBool _ => TBoolean
  | VInt _ => TInteger
  | VFloat _ => TFloat
  | VStr _ => TString
  | VList _ => TSequence
  | VDict _ => TMapping
  end.

Definition literal_type_eqb (a b : literal_type) : bool :=
  match a, b with
  | TNull, TNull | TBoolean, TBoolean | TInteger, TInteger | TFloat, TFloat
  | TString, TString | TSequence, TSequence | TMapping, TMapping => true
  | _, _ => false
  end.

(** Python's view of the same types: a boolean is a number. *)
Inductive py_class : Type :=
| CNone | CNumber | CString | CList | CDict.

Definition class_of (v : pyobj) : py_class :=
  match v with
  | VNone => CNone
  | VBool _ | VInt _ | VFloat _ => CNumber
  | VStr _ => CString
  | VList _ => CList
  | VDict _ => CDict
  end.

Definition py_class_eqb (a b : py_class) : bool :=
  match a, b with
  | CNone, CNone | CNumber, CNumber | CString, CString
  | CList, CList | CDict, CDict => true
  | _, _ => false
  end.

(** Ordering-comparable as the specification has it: both numbers or both
    strings. *)
Definition spec_comparable (a b : pyobj) : bool :=
  match type_of a, type_of b with
  | (TInteger | TFloat), (TInteger | TFloat) | TString, TString => true
  | _, _ => false
  end.

(** Operands that Python orders at all: two numbers, two strings, two
    lists. *)
Definition orderable (a b : pyobj) : bool :=
  match class_of a, class_of b with
  | CNumber, CNumber | CString, CString | CList, CList => true
  | _, _ => false
  end.

Definition ordering_operators : list str := [s ">"; s "<"; s ">="; s "<="].

(** One of the two keywords, in any letter case, starts at position [i]. *)
Definition keyword_at (x : str) (i : nat) : bool :=
  str_eqb (upper (slice x i (i + 5))) (s " AND ") ||
  str_eqb (upper (slice x i (i + 4))) (s " OR ").

Definition positions (x : str) : list nat := seq 0 (length x).

(** The quote that is open behind a text, for a reader that pairs each
    opening quote with the next quote of the same kind. *)
Fixpoint open_quote (opened : option ascii) (x : str) : option ascii :=
  match x with
  | [] => opened
  | c :: x' =>
      match opened with
      | None => open_quote (if is_quote c then Some c else None) x'
      | Some q => open_quote (if Ascii.eqb c q then None else Some q) x'
      end
  end.

(** Position [i] lies between an opening quote and its closing quote. *)
Definition between_quotes (x : str) (i : nat) : bool :=
  match open_quote None (firstn i x) with
  | Some q => existsb (Ascii.eqb q) (skipn i x)
  | None => false
  end.

(** Position [i] follows an odd number of quote characters of either kind:
    the flag [in_quotes] of the splitter is set there. *)
Definition flag_set (x : str) (i : nat) : bool :=
  Nat.odd (length (filter is_quote (firstn i x))).

(** Every keyword of [x] starts at a position that [inside] accepts. *)
Definition keywords_only (inside : str -> nat -> bool) (x : str) : bool :=
  forallb (fun i => implb (keyword_at x i) (inside x i)) (positions x).

Definition mixed_quotes : str :=
  s "$.a == " ++ dquote :: s "it's AND b" ++ [dquote].

(* ================================================================== *)
(** ** Invariants used in the proofs *)

(** The splitter's lists grow together, and as long as no connector is
    recorded nothing else has moved. *)
Definition balanced (st : split_state) : Prop :=
  length (parts st) = length (operators st) /\
  (operators st = [] -> parts st = [] /\ last_pos st = 0).

(** A traced run agrees with the evaluator it calls: a clause it reached
    either returned or decided the outcome, and an exception of the run is
    the one of a clause it reached (or an [IndexError] of the run itself). *)
Definition faithful {A : Type} (evaluate : str -> outcome bool) (m : traced A)
  : Prop :=
  (forall c, In c (fst m) ->
     match evaluate c with
     | Ret _ => True
     | Raise e => snd m = Raise e
     | Beyond => snd m = Beyond
     end) /\
  (forall e, snd m = Raise e ->
     e = IndexError \/ exists c, In c (fst m) /\ evaluate c = Raise e).

(** A property of the first element of a list, when there is one. *)
Definition first_of {A : Type} (P : A -> Prop) (l : list A) : Prop :=
  match hd_error l with Some a => P a | None => True end.

(** The ways the pattern goes on behind an operator [p]. *)
Definition behind_operator (field p rest : str) : list (str * str * str) :=
  flat_map (fun w4 =>
    map (fun w5 => (field, p, fst w5)) (greedy_plus is_not_newline (snd w4)))
    (greedy_star is_space rest).

Definition operator_of (t : str * str * str) : str := snd (fst t).

Definition four_operators : list str := [s "=="; s "!="; s ">"; s "<"].

(** The run of [p] cannot go on into [rest]. *)
Definition stops (p : ascii -> bool) (rest : str) : Prop :=
  match rest with c :: _ => p c = false | [] => True end.

(** A clause written with single spaces around its operator. *)
Definition clause (field operator value : str) : str :=
  s "$." ++ field ++ " "%char :: operator ++ " "%char :: value.

(** A path of word characters and dots. *)
Definition is_field (field : str) : bool :=
  nonempty field && forallb is_word_or_dot field.

(** Text with no white space at either end. *)
Definition unpadded (x : str) : bool :=
  match x, rev x with
  | c :: _, l :: _ => negb (is_space c) && negb (is_space l)
  | _, _ => false
  end.

(** Text that the pattern takes whole as its value. *)
Definition is_value_text (value : str) : bool :=
  unpadded value && forallb is_not_newline value.

(** A name that the evaluator finds nowhere: an identifier that is none of
    the constants and not the one global name. *)
Definition is_bare_word (t : str) : bool :=
  is_identifier t &&
  negb (existsb (str_eqb t)
          (map s ["True"; "False"; "None"; "__debug__"; "__builtins__"]%string)).

(** The state after a turn that records nothing. *)
Definition idle (quoted : bool) (st : split_state) : split_state :=
  {| parts := parts st; operators := operators st;
     last_pos := last_pos st; in_quotes := quoted |}.

(* ================================================================== *)
(** ** The first draft: [parse_expression] and [evaluate_expression] *)

(** The pattern, as the text bound to the local variable [pattern]. *)
Definition pattern : str := s "\$\.([\w\.]+)\s*(==|!=|>|<|>=|<=)\s*(.+)".

(** The local variables of [parse_expression] at its call of [eval], but
    for [match], whose match object is no value of the model. *)
Definition parse_locals (expr field operator value : str) : namespace :=
  [ (s "expr", VStr expr); (s "pattern", VStr pattern);
    (s "field", VStr field); (s "operator", VStr operator);
    (s "value", VStr value) ].

(** [parse_expression]: the same pattern, and [eval(value)] with the
    globals of the notebook and the locals of the function. The globals are
    not modelled: a name that is no local variable is answered [Beyond]. *)
Definition parse_expression (expr : str) : outcome (str * str * pyobj) :=
  match re_match (strip expr) with
  | None => Raise (invalid_format expr)
  | Some (field, operator, value) =>
      match
        (if str_eqb value (s "match") then Beyond
         else py_eval value [] (parse_locals expr field operator value))
      with
      | Ret evaluated_value => Ret (field, operator, evaluated_value)
      | Raise _ => Ret (field, operator, VStr value)
      | Beyond => Beyond
      end
  end.

(** [evaluate_expression] *)
Definition evaluate_expression (expr : str) (obj : pyobj) : outcome bool :=
  obind (parse_expression expr) (fun parsed =>
  obind (pydash_get obj (fst (fst parsed))) (fun field_value =>
  apply_operator (snd (fst parsed)) field_value (snd parsed))).

(* ================================================================== *)
(** ** More vocabulary for the properties *)

(** A run of white space. *)
Definition is_blank (x : str) : bool := forallb is_space x.

(** A match, read back: the text is the dollar sign and the dot, the field,
    white space, the operator, white space, the value, and a rest that the
    pattern leaves alone. *)
Definition reads_as (x : str) (t : str * str * str) : Prop :=
  let '(field, operator, value) := t in
  exists before after rest,
    x = s "$." ++ field ++ before ++ operator ++ after ++ value ++ rest /\
    is_field field = true /\ is_blank before = true /\
    is_blank after = true /\ value <> [] /\
    forallb is_not_newline value = true /\ stops is_not_newline rest.

(** The flag [in_quotes] behind the text [pre]. *)
Definition flag (pre : str) : bool := Nat.odd (length (filter is_quote pre)).

(** The turn at position [i] records a connector: the flag is clear behind
    the character at [i], five characters are left, and a keyword starts
    there. *)
Definition cuts_at (x : str) (i : nat) : bool :=
  negb (flag (firstn (S i) x)) && (i + 5 <=? length x) && keyword_at x i.

(** The state after a turn that records the connector [name], whose keyword
    is [width] characters wide. *)
Definition record (x : str) (i : nat) (name : str) (width : nat)
  (quoted : bool) (st : split_state) : split_state :=
  {| parts := parts st ++ [slice x (last_pos st) i];
     operators := operators st ++ [name];
     last_pos := i + width;
     in_quotes := quoted |}.

(** Two clauses joined by a connector, as the docstring of [test] writes
    them. *)
Definition joined (A name B : str) : str :=
  A ++ " "%char :: name ++ " "%char :: B.

(** No position of [x] but [k] starts a keyword. *)
Definition only_keyword_at (k : nat) (x : str) : bool :=
  forallb (fun i => implb (keyword_at x i) (i =? k)) (positions x).

(** A run names where each of its exceptions comes from: a clause it has
    reached. *)
Definition sourced {A : Type} (evaluate : str -> outcome bool) (m : traced A)
  : Prop :=
  forall e, snd m = Raise e -> exists c, In c (fst m) /\ evaluate c = Raise e.

(** [test] without its first [if]: the splitter and the fold on every
    text. *)
Definition test_without_shortcut (self : Expr) (o : pyobj) : traced bool :=
  let (ps, ops) := split_on_logical_ops (args self) in
  match ps with
  | [] => traise IndexError
  | first :: _ =>
      result <- call (evaluate_comparison o) first ;;
      for_loop (evaluate_comparison o) ps ops 0 ops result
  end.

(** [A and B] and [A or B] on two clauses, with the short circuit of
    Python. *)
Definition and_then (evaluate : str -> outcome bool) (A B : str) : traced bool :=
  r <- call evaluate A ;; if r then call evaluate B else tret false.

Definition or_else (evaluate : str -> outcome bool) (A B : str) : traced bool :=
  r <- call evaluate A ;; if r then tret true else call evaluate B.

(** The clauses [ps] one after the other as long as they hold, from the
    result so far. *)
Fixpoint all_hold (evaluate : str -> outcome bool) (ps : list str)
  (result : bool) : traced bool :=
  match ps with
  | [] => tret result
  | p :: ps' =>
      if result then r <- call evaluate p ;; all_hold evaluate ps' r
      else tret false
  end.

(** The clauses [ps] one after the other until one holds, from the result
    so far. *)
Fixpoint any_holds (evaluate : str -> outcome bool) (ps : list str)
  (result : bool) : traced bool :=
  match ps with
  | [] => tret result
  | p :: ps' =>
      if result then tret true
      else r <- call evaluate p ;; any_holds evaluate ps' r
  end.

(** The states of the splitter on a text and on its upper case. *)
Definition same_cuts (st st' : split_state) : Prop :=
  parts st' = map upper (parts st) /\ operators st' = operators st /\
  last_pos st' = last_pos st /\ in_quotes st' = in_quotes st.

(** The text of a decimal integer that Python reads as such: digits, at
    most [max_str_digits] of them, with no zero in front unless all are
    zeros. *)
Definition is_plain_integer (d : str) : bool :=
  nonempty d && forallb is_digit d && (length d <=? max_str_digits) &&
  (forallb (Ascii.eqb "0") d || negb (Ascii.eqb (hd "0"%char d) "0")).

(** Text that stands between two quotes [q] as it is: printable, without
    backslash and without [q]. *)
Definition is_plain_text (q : ascii) (t : str) : bool :=
  forallb (fun c => is_printable c && negb (Ascii.eqb c backslash) &&
                    negb (Ascii.eqb c q)) t.

(** The plain literals, each with its value: the three constants, a decimal
    integer with or without a minus sign, and a text between two quotes of
    one kind. *)
Inductive plain_literal : str -> pyobj -> Prop :=
| plain_true : plain_literal (s "True") (VBool true)
| plain_false : plain_literal (s "False") (VBool false)
| plain_none : plain_literal (s "None") VNone
| plain_integer (d : str) :
    is_plain_integer d = true -> plain_literal d (VInt (decimal_value d))
| plain_negative (d : str) :
    is_plain_integer d = true ->
    plain_literal ("-"%char :: d) (VInt (- decimal_value d))
| plain_string (q : ascii) (t : str) :
    is_quote q = true -> is_plain_text q t = true ->
    plain_literal (q :: t ++ [q]) (VStr t).

(** Every clause a run has reached is one of [ps]. *)
Definition within {A : Type} (ps : list str) (m : traced A) : Prop :=
  incl (fst m) ps.

(** A run that returns or raises. *)
Definition settled {A : Type} (m : traced A) : Prop := snd m <> Beyond.

(* ================================================================== *)
(** * Properties *)

(** One case for each member of a list of four operators. *)
Ltac each_operator H := destruct H as [<-|[<-|[<-|[<-|[]]]]].

(** ** The splitter *)

Lemma split_step_balanced (expr : str) (i : nat) (c : ascii) (st : split_state) :
  balanced st -> balanced (split_step expr i c st).
Proof.
  intros [Hlen Hnone]. unfold split_step.
  destruct (negb _ && _); [destruct (str_eqb _ _); [|destruct (str_eqb _ _)]|];
    split; cbn [parts operators last_pos];
    rewrite ?length_app; cbn [length]; try lia; try assumption;
    intros E; try (now apply app_eq_nil in E as [_ E']).
Qed.

Lemma split_loop_balanced (expr rest : str) :
  forall i st, balanced st -> balanced (split_loop expr i rest st).
Proof.
  induction rest as [|c rest IH]; intros i st H; cbn [split_loop].
  - exact H.
  - apply IH, split_step_balanced, H.
Qed.

Lemma split_start_balanced : balanced split_start.
Proof. split; [reflexivity | intros _; split; reflexivity]. Qed.

(** C8. For every input the splitter returns at least one clause and one
    connector fewer than clauses; when it records no connector the only
    clause is the whole input. *)
Theorem split_on_logical_ops_counts (expr : str) :
  fst (split_on_logical_ops expr) <> [] /\
  length (snd (split_on_logical_ops expr)) =
    length (fst (split_on_logical_ops expr)) - 1 /\
  (snd (split_on_logical_ops expr) = [] ->
   fst (split_on_logical_ops expr) = [expr]).
Proof.
  unfold split_on_logical_ops; cbn [fst snd].
  destruct (split_loop_balanced expr expr 0 split_start split_start_balanced)
    as [Hlen Hnone].
  repeat split.
  - intros E. now apply app_eq_nil in E as [_ E'].
  - rewrite length_app. cbn [length]. lia.
  - intros E. destruct (Hnone E) as [-> ->]. reflexivity.
Qed.

(** The splitter on a text without any keyword: one clause, no connector. *)
Lemma split_on_logical_ops_counts_witness :
  snd (split_on_logical_ops (s "$.count > 5")) = [] /\
  fst (split_on_logical_ops (s "$.count > 5")) = [s "$.count > 5"].
Proof.
  split; [reflexivity|].
  apply (split_on_logical_ops_counts (s "$.count > 5")). reflexivity.
Defined.

(** ** The fold *)

Lemma for_loop_plain (evaluate : str -> outcome bool) (ps ops : list str) :
  forall todo i result,
    for_loop evaluate ps ops i todo result = plain_loop evaluate ps i todo result.
Proof.
  induction todo as [|op todo IH]; intros i result; cbn [for_loop plain_loop].
  - reflexivity.
  - unfold loop_body, plain_body.
    destruct (str_eqb op (s "AND")); [|destruct (str_eqb op (s "OR"))].
    + set (m := if result then _ else _).
      destruct m as [log [[|]| |]]; cbn; rewrite ?IH; reflexivity.
    + set (m := if result then _ else _).
      destruct m as [log [[|]| |]]; cbn; try reflexivity;
        destruct (next_is_or ops i); cbn; rewrite ?IH; reflexivity.
    + cbn. rewrite IH. reflexivity.
Qed.

(** C10. The [continue] of the [OR] case changes nothing: [test] and the
    variant with the plain [OR] case evaluate the same clauses in the same
    order and end with the same boolean or the same exception. *)
Theorem or_continue_is_no_op (self : Expr) (o : pyobj) :
  Expr_test_traced self o = Expr_test_plain_traced self o.
Proof.
  unfold Expr_test_traced, Expr_test_plain_traced, test_with.
  destruct (negb _ && negb _); [reflexivity|].
  destruct (split_on_logical_ops (args self)) as [ps ops].
  destruct ps as [|first ps']; [reflexivity|].
  unfold tbind, call; cbn [fst snd].
  destruct (evaluate_comparison o first); try reflexivity.
  rewrite for_loop_plain. reflexivity.
Qed.

(** ** Values and their comparisons *)

(** Induction on a value, with the property at hand for every item of a
    list and of a dictionary. *)
Lemma pyobj_nested_ind (P : pyobj -> Prop) :
  P VNone ->
  (forall b, P (VBool b)) ->
  (forall z, P (VInt z)) ->
  (forall f, P (VFloat f)) ->
  (forall x, P (VStr x)) ->
  (forall l, Forall P l -> P (VList l)) ->
  (forall kvs, Forall (fun kv => P (snd kv)) kvs -> P (VDict kvs)) ->
  forall v, P v.
Proof.
  intros HNone HBool HInt HFloat HStr HList HDict.
  fix IH 1. intros [ | b | z | f | x | l | kvs].
  - exact HNone.
  - apply HBool.
  - apply HInt.
  - apply HFloat.
  - apply HStr.
  - apply HList. induction l as [|v l IHl]; constructor; [apply IH | exact IHl].
  - apply HDict. induction kvs as [|[k v] kvs IHl]; constructor;
      [apply IH | exact IHl].
Qed.

Lemma float_order_raises (op : order_op) (a b : pyobj) (e : exn) :
  float_order op a b = Raise e -> e = TypeError.
Proof.
  unfold float_order. destruct (as_float a), (as_float b);
    try (intros [= <-]; reflexivity).
  destruct (float_compare _ _); discriminate.
Qed.

(** An ordering comparison raises nothing but a [TypeError]. *)
Lemma py_order_raises (op : order_op) (a : pyobj) :
  forall b e, py_order op a b = Raise e -> e = TypeError.
Proof.
  induction a as [ | x | x | x | x | l IH | kvs _] using pyobj_nested_ind;
    intros b e; destruct b as [ | y | y | y | y | l' | kvs'];
    cbn [py_order as_number];
    try discriminate; try (intros [= <-]; reflexivity);
    try apply float_order_raises.
  revert l'. induction IH as [|v l Hv _ IHl]; intros l' H.
  - destruct l'; discriminate.
  - destruct l' as [|w l']; [discriminate|].
    destruct (py_eq v w); [exact (IHl _ H) | exact (Hv _ _ H)].
Qed.

Lemma evaluated_value_of_no_raise (value : str) (e : exn) :
  evaluated_value_of value <> Raise e.
Proof. unfold evaluated_value_of. destruct (py_eval _ _ _); discriminate. Qed.

(** ** Traced runs *)

Section Faithful.

Variable evaluate : str -> outcome bool.

Lemma faithful_tret (A : Type) (a : A) : faithful evaluate (tret a).
Proof. split; cbn; [intros c [] | discriminate]. Qed.

Lemma faithful_traise_index (A : Type) :
  faithful evaluate (@traise A IndexError).
Proof. split; cbn; [intros c [] | intros e [= <-]; now left]. Qed.

Lemma faithful_call (expr : str) : faithful evaluate (call evaluate expr).
Proof.
  split; cbn.
  - intros c [<- | []]. destruct (evaluate expr); reflexivity.
  - intros e H. right. exists expr. split; [now left | exact H].
Qed.

Lemma faithful_tbind (A B : Type) (m : traced A) (k : A -> traced B) :
  faithful evaluate m -> (forall a, faithful evaluate (k a)) ->
  faithful evaluate (tbind m k).
Proof.
  destruct m as [log out]. intros [Hlog Hexn] Hk. unfold tbind; cbn in *.
  destruct out as [a|e0|]; cbn; split.
  - intros c Hc. apply in_app_or in Hc as [Hc|Hc].
    + specialize (Hlog c Hc). destruct (evaluate c); [exact I | discriminate..].
    + apply (Hk a), Hc.
  - intros e He. destruct (proj2 (Hk a) e He) as [->|(c & Hc & Ec)]; [now left|].
    right. exists c. split; [apply in_or_app; now right | exact Ec].
  - intros c Hc. specialize (Hlog c Hc).
    destruct (evaluate c); [exact I | now injection Hlog as <- | discriminate].
  - intros e [= <-]. apply Hexn. reflexivity.
  - intros c Hc. specialize (Hlog c Hc).
    destruct (evaluate c); [exact I | discriminate | reflexivity].
  - discriminate.
Qed.

Lemma faithful_call_part (ps : list str) (j : nat) :
  faithful evaluate (call_part evaluate ps j).
Proof.
  unfold call_part. destruct (nth_error ps j);
    [apply faithful_call | apply faithful_traise_index].
Qed.

Lemma faithful_loop_body (ps ops : list str) (i : nat) (op : str) (result : bool) :
  faithful evaluate (loop_body evaluate ps ops i op result).
Proof.
  unfold loop_body.
  destruct (str_eqb op (s "AND")); [|destruct (str_eqb op (s "OR"))].
  - apply faithful_tbind.
    + destruct result; [apply faithful_call_part | apply faithful_tret].
    + intros r. destruct (negb r); apply faithful_tret.
  - apply faithful_tbind.
    + destruct result; [apply faithful_tret | apply faithful_call_part].
    + intros r. destruct (r && _); apply faithful_tret.
  - apply faithful_tret.
Qed.

Lemma faithful_for_loop (ps ops : list str) :
  forall todo i result, faithful evaluate (for_loop evaluate ps ops i todo result).
Proof.
  induction todo as [|op todo IH]; intros i result; cbn [for_loop].
  - apply faithful_tret.
  - apply faithful_tbind; [apply faithful_loop_body|].
    intros [r f]. destruct f; cbn; [apply IH | apply IH | apply faithful_tret].
Qed.

End Faithful.

Lemma faithful_test_by (evaluate : str -> outcome bool) (self : Expr) :
  faithful evaluate (test_by evaluate self).
Proof.
  unfold test_by.
  destruct (negb _ && negb _); [apply faithful_call|].
  destruct (split_on_logical_ops (args self)) as [ps ops].
  destruct ps as [|first ps']; [apply faithful_traise_index|].
  apply faithful_tbind; [apply faithful_call|].
  intros r. apply faithful_for_loop.
Qed.

(** ** The clause pattern *)

Lemma first_of_app {A : Type} (P : A -> Prop) (l1 l2 : list A) :
  (forall a, In a l1 -> P a) -> (l1 = [] -> first_of P l2) ->
  first_of P (l1 ++ l2).
Proof.
  intros H1 H2. destruct l1 as [|a l1]; [now apply H2|].
  cbn. apply H1. now left.
Qed.

Lemma first_of_flat_map {A B : Type} (P : B -> Prop) (f : A -> list B) (l : list A) :
  (forall a, In a l -> first_of P (f a)) -> first_of P (flat_map f l).
Proof.
  induction l as [|a l IH]; intros H; cbn; [exact I|].
  destruct (f a) as [|b bs] eqn:E.
  - apply IH. intros a' Ha'. apply H. now right.
  - specialize (H a (or_introl eq_refl)). rewrite E in H. exact H.
Qed.

Lemma greedy_star_nonempty (p : ascii -> bool) (x : str) : greedy_star p x <> [].
Proof.
  destruct x as [|c x]; cbn; [discriminate|].
  destruct (p c); [|discriminate].
  intros E. now apply app_eq_nil in E as [_ E'].
Qed.

Lemma strip_prefix_app (p : str) : forall x r, strip_prefix p x = Some r -> x = p ++ r.
Proof.
  induction p as [|a p IH]; intros x r; cbn.
  - now intros [= ->].
  - destruct x as [|b x]; [discriminate|].
    destruct (Ascii.eqb_spec a b) as [->|]; [|discriminate].
    intros H. now rewrite (IH _ _ H).
Qed.

Lemma behind_operator_operator field p rest t :
  In t (behind_operator field p rest) -> operator_of t = p.
Proof.
  unfold behind_operator. intros H.
  apply in_flat_map in H as (w4 & _ & H).
  apply in_map_iff in H as (w5 & <- & _). reflexivity.
Qed.

Lemma behind_operator_equals field p rest :
  behind_operator field p ("=" :: rest)%char <> [].
Proof.
  unfold behind_operator. cbn [greedy_star].
  change (is_space "=") with false. cbn [flat_map snd greedy_plus].
  change (is_not_newline "=") with true. cbn iota.
  destruct (greedy_star is_not_newline rest) eqn:E.
  - now apply greedy_star_nonempty in E.
  - cbn. discriminate.
Qed.

Lemma shadowed_operator field r2 (short long : str) :
  strip_prefix long r2 = None \/ (exists rest, strip_prefix short r2 = Some ("=" :: rest)%char) ->
  flat_map (fun w3 => behind_operator field (fst w3) (snd w3)) (literal short r2) = [] ->
  flat_map (fun w3 => behind_operator field (fst w3) (snd w3)) (literal long r2) = [].
Proof.
  unfold literal. intros [->|[rest ->]]; [reflexivity|].
  cbn. rewrite app_nil_r. intros H. now apply behind_operator_equals in H.
Qed.

Lemma shorter_first (c : ascii) (r2 : str) :
  strip_prefix [c; "="%char] r2 = None \/
  exists rest, strip_prefix [c] r2 = Some ("=" :: rest)%char.
Proof.
  destruct r2 as [|c1 [|c2 rest]]; cbn [strip_prefix]; try (now left).
  - destruct (Ascii.eqb c c1); now left.
  - destruct (Ascii.eqb c c1); [|now left].
    destruct (Ascii.eqb_spec "=" c2) as [<-|]; [right; now exists rest | now left].
Qed.

Lemma operator_ways (field r2 : str) :
  first_of (fun t => In (operator_of t) four_operators)
    (flat_map (fun w3 => behind_operator field (fst w3) (snd w3))
       (alternation comparison_operators r2)).
Proof.
  unfold alternation, comparison_operators. cbn [flat_map].
  rewrite !flat_map_app. cbn [flat_map].
  set (X := fun p => flat_map (fun w3 => behind_operator field (fst w3) (snd w3)) (literal p r2)).
  assert (HX : forall p t, In t (X p) -> operator_of t = p).
  { intros p t H. unfold X, literal in H. destruct (strip_prefix p r2); [|destruct H].
    cbn in H. rewrite app_nil_r in H. now apply behind_operator_operator in H. }
  fold (X (s "==")) (X (s "!=")) (X (s ">")) (X (s "<")) (X (s ">=")) (X (s "<=")).
  apply first_of_app; [intros t H; rewrite (HX _ _ H); cbn; tauto|]. intros _.
  apply first_of_app; [intros t H; rewrite (HX _ _ H); cbn; tauto|]. intros _.
  apply first_of_app; [intros t H; rewrite (HX _ _ H); cbn; tauto|]. intros Hgt.
  apply first_of_app; [intros t H; rewrite (HX _ _ H); cbn; tauto|]. intros Hlt.
  unfold X. rewrite (shadowed_operator field r2 (s ">") (s ">=") (shorter_first _ _) Hgt).
  rewrite (shadowed_operator field r2 (s "<") (s "<=") (shorter_first _ _) Hlt).
  exact I.
Qed.

Lemma re_match_operator (x : str) :
  first_of (fun t => In (operator_of t) four_operators) (pattern_ways x).
Proof.
  unfold pattern_ways.
  apply first_of_flat_map. intros w0 _.
  apply first_of_flat_map. intros w1 _.
  apply first_of_flat_map. intros w2 _.
  apply (operator_ways (fst w1) (snd w2)).
Qed.


Lemma hd_error_flat_map {A B : Type} (f : A -> list B) (l : list A) (a : A) (b : B) :
  hd_error l = Some a -> hd_error (f a) = Some b ->
  hd_error (flat_map f l) = Some b.
Proof.
  destruct l as [|a' l]; [discriminate|]. intros [= ->] H. cbn.
  destruct (f a); [discriminate|exact H].
Qed.

Lemma hd_error_map {A B : Type} (f : A -> B) (l : list A) (a : A) :
  hd_error l = Some a -> hd_error (map f l) = Some (f a).
Proof. destruct l; [discriminate|]. now intros [= ->]. Qed.

Lemma greedy_star_head (p : ascii -> bool) (run rest : str) :
  forallb p run = true -> stops p rest ->
  hd_error (greedy_star p (run ++ rest)) = Some (run, rest).
Proof.
  intros Hrun Hrest. induction run as [|c run IH]; cbn [app greedy_star].
  - destruct rest as [|c rest]; [reflexivity|]. cbn in Hrest.
    cbn [greedy_star]. now rewrite Hrest.
  - cbn in Hrun. apply andb_prop in Hrun as [-> Hrun].
    specialize (IH Hrun). destruct (greedy_star p (run ++ rest)); [discriminate|].
    cbn in *. now injection IH as ->.
Qed.

Lemma greedy_plus_head (p : ascii -> bool) (run rest : str) :
  run <> [] -> forallb p run = true -> stops p rest ->
  hd_error (greedy_plus p (run ++ rest)) = Some (run, rest).
Proof.
  destruct run as [|c run]; [congruence|]. intros _ Hrun Hrest.
  cbn in Hrun. apply andb_prop in Hrun as [Hc Hrun].
  cbn [app greedy_plus]. rewrite Hc.
  now rewrite (hd_error_map _ _ _ (greedy_star_head p run rest Hrun Hrest)).
Qed.

Lemma alternation_head (op rest : str) :
  In op four_operators ->
  hd_error (alternation comparison_operators (op ++ rest)) = Some (op, rest).
Proof.
  intros Hop; each_operator Hop; reflexivity.
Qed.

(** The pattern on a clause written with single spaces: the groups are the
    field, the operator and the value as written. *)
Lemma re_match_clause (field op value : str) :
  field <> [] -> forallb is_word_or_dot field = true ->
  In op four_operators ->
  value <> [] -> forallb is_not_newline value = true -> stops is_space value ->
  re_match (s "$." ++ field ++ " "%char :: op ++ " "%char :: value)
  = Some (field, op, value).
Proof.
  intros Hf Hfs Hop Hv Hvs Hv0. unfold re_match, pattern_ways.
  eapply hd_error_flat_map; [reflexivity|]. cbn [snd].
  eapply hd_error_flat_map;
    [apply greedy_plus_head; [exact Hf|exact Hfs|reflexivity]|]. cbn [snd].
  eapply hd_error_flat_map;
    [apply (greedy_star_head is_space [" "%char]); [reflexivity|]|].
  { each_operator Hop; reflexivity. }
  cbn [snd].
  eapply hd_error_flat_map; [apply alternation_head, Hop|]. cbn [snd].
  eapply hd_error_flat_map;
    [apply (greedy_star_head is_space [" "%char]); [reflexivity|exact Hv0]|].
  cbn [snd fst].
  rewrite <- (app_nil_r value) at 1.
  now rewrite (hd_error_map _ _ _ (greedy_plus_head _ value [] Hv Hvs I)).
Qed.

Lemma lstrip_stops (x : str) : stops is_space x -> lstrip x = x.
Proof. destruct x as [|c x]; cbn; [reflexivity|]. now intros ->. Qed.

Lemma unpadded_stops (x : str) :
  unpadded x = true -> x <> [] /\ stops is_space x /\ stops is_space (rev x).
Proof.
  unfold unpadded. destruct x as [|c x]; [discriminate|].
  destruct (rev (c :: x)) as [|l r]; [discriminate|].
  intros H. apply andb_prop in H as [H1 H2].
  repeat split; [discriminate | now apply negb_true_iff in H1
                | now apply negb_true_iff in H2].
Qed.

Lemma stops_app (p : ascii -> bool) (x y : str) :
  x <> [] -> stops p x -> stops p (x ++ y).
Proof. destruct x; [congruence|]. intros _ H. exact H. Qed.

Lemma strip_clause (field operator value : str) :
  unpadded value = true ->
  strip (clause field operator value) = clause field operator value.
Proof.
  intros H. apply unpadded_stops in H as (Hne & _ & Hlast).
  unfold strip, rstrip. rewrite (lstrip_stops (clause field operator value)) by exact eq_refl.
  rewrite lstrip_stops; [apply rev_involutive|].
  unfold clause.
  replace (s "$." ++ field ++ " "%char :: operator ++ " "%char :: value)
    with ((s "$." ++ field ++ " "%char :: operator ++ [" "%char]) ++ value)
    by (now rewrite <- !app_assoc; cbn; rewrite <- !app_assoc).
  rewrite rev_app_distr. apply stops_app; [|exact Hlast].
  intros E. apply (f_equal (@rev ascii)) in E. rewrite rev_involutive in E.
  now apply Hne.
Qed.

(** What [evaluate_comparison] does with a clause written that way. *)
Lemma evaluate_comparison_clause (o : pyobj) (field operator value : str) :
  is_field field = true -> In operator four_operators ->
  is_value_text value = true ->
  evaluate_comparison o (clause field operator value) =
  obind (evaluated_value_of value) (fun evaluated_value =>
  obind (pydash_get o field) (fun field_value =>
  apply_operator operator field_value evaluated_value)).
Proof.
  intros Hf Hop Hv. unfold evaluate_comparison.
  apply andb_prop in Hv as [Hpad Hnn].
  rewrite (strip_clause _ _ _ Hpad).
  apply andb_prop in Hf as [Hf1 Hf2].
  destruct (unpadded_stops _ Hpad) as (Hne & Hfirst & _).
  unfold clause. rewrite re_match_clause; try assumption; [reflexivity|].
  now destruct field.
Qed.

(** ** Bare words *)

Lemma word_char (c : ascii) :
  is_word c = true ->
  is_space c = false /\ is_not_newline c = true /\ is_printable c = true /\
  is_quote c = false /\ Ascii.eqb c "=" = false /\ Ascii.eqb c "-" = false.
Proof.
  destruct c as [[] [] [] [] [] [] [] []]; vm_compute; intros H;
    try discriminate H; repeat split.
Qed.

Lemma forallb_impl (p q : ascii -> bool) (x : str) :
  (forall c, p c = true -> q c = true) ->
  forallb p x = true -> forallb q x = true.
Proof.
  intros Hpq H. apply forallb_forall. intros c Hc.
  apply Hpq. now apply (proj1 (forallb_forall p x) H).
Qed.

Lemma identifier_word (t : str) :
  is_identifier t = true -> t <> [] /\ forallb is_word t = true.
Proof.
  destruct t as [|c rest]; [discriminate|]. cbn [is_identifier forallb].
  intros H. apply andb_prop in H as [Hc Hrest]. split; [discriminate|].
  rewrite Hrest, andb_true_r. unfold is_word.
  apply orb_prop in Hc as [->| ->]; [reflexivity | apply orb_true_r].
Qed.

Lemma identifier_value_text (t : str) :
  is_identifier t = true -> is_value_text t = true.
Proof.
  intros H. apply identifier_word in H as [Hne Hw].
  assert (Hall : forall c, In c t -> is_word c = true)
    by (now apply forallb_forall).
  unfold is_value_text, unpadded. apply andb_true_intro. split.
  - destruct t as [|c rest]; [congruence|].
    destruct (rev (c :: rest)) as [|l r] eqn:E.
    + apply (f_equal (@rev ascii)) in E. now rewrite rev_involutive in E.
    + assert (Hl : In l (c :: rest)) by (apply in_rev; rewrite E; now left).
      destruct (word_char c (Hall c (or_introl eq_refl))) as (-> & _).
      destruct (word_char l (Hall l Hl)) as (-> & _). reflexivity.
  - apply (forallb_impl is_word); [|exact Hw]. intros c Hc. now apply word_char.
Qed.

Lemma bare_word_evaluates_to_itself (t : str) :
  is_bare_word t = true -> evaluated_value_of t = Ret (VStr t).
Proof.
  unfold is_bare_word. intros H. apply andb_prop in H as [Hid Hnot].
  apply negb_true_iff in Hnot. cbn [map existsb] in Hnot.
  repeat (apply orb_false_elim in Hnot as [? Hnot]).
  destruct (identifier_word t Hid) as [Hne Hw].
  unfold evaluated_value_of, py_eval.
  rewrite (forallb_impl is_word is_printable t) by (intros c Hc; now apply word_char) || exact Hw.
  cbn [negb]. destruct t as [|c rest]; [congruence|].
  assert (Hc : is_word c = true) by (cbn in Hw; now apply andb_prop in Hw).
  destruct (word_char c Hc) as (_ & _ & _ & -> & _).
  rewrite Hid. unfold eval_name. rewrite H, H0, H1, H2.
  destruct (existsb _ keywords); [reflexivity|].
  cbn [dict_get]. rewrite H3.
  change (str_eqb (s "__builtins__") (s "__builtins__")) with true.
  reflexivity.
Qed.


(** ** The runs of the notebook *)

(** The expressions the notebook tests on [test_object_extended], with the
    results its comments expect (the last one, [expr_complex], apart). *)
Example notebook_runs :
  let run x := Expr_test (Expr_init x) test_object_extended in
  run (s "$.foo == " ++ quoted "some value") = Ret true /\
  run (s "$.count > 5") = Ret true /\
  run (s "$.nested.field == 123") = Ret true /\
  run (s "$.active == True") = Ret true /\
  run (s "$.foo == " ++ quoted "some value" ++ s " AND $.count > 5") = Ret true /\
  run (s "$.foo == " ++ quoted "some value" ++ s " AND $.count < 5") = Ret false /\
  run (s "$.role == " ++ quoted "admin" ++ s " OR $.count > 5") = Ret true /\
  run (s "$.role == " ++ quoted "admin" ++ s " OR $.count < 5") = Ret false.
Proof. cbv zeta. repeat split; vm_compute; reflexivity. Qed.

(** ** The claims on clauses and comparisons *)

(** C1. The chain [A AND B OR C] of the notebook, which its comment expects
    to be true: the first clause holds, the second fails, the third holds,
    and [test] answers false, having stopped at the [break] of the [AND]
    case. On any three clauses the fold never evaluates the third one: the
    result is that of [A and B]. *)
Theorem and_or_chain_stops_at_the_break :
  evaluate_comparison test_object_extended
    (s "$.foo == " ++ quoted "some value") = Ret true /\
  evaluate_comparison test_object_extended
    (s "$.role == " ++ quoted "admin") = Ret false /\
  evaluate_comparison test_object_extended (s "$.count > 5") = Ret true /\
  Expr_test (Expr_init expr_complex) test_object_extended = Ret false /\
  (forall evaluate A B C first,
     for_loop evaluate [A; B; C] [s "AND"; s "OR"] 0 [s "AND"; s "OR"] first =
     if first then call evaluate B else tret false).
Proof.
  repeat split; try (vm_compute; reflexivity).
  intros evaluate A B C [|]; [|reflexivity].
  cbn [for_loop]. unfold loop_body, call_part, call, tbind, tret.
  change (str_eqb (s "AND") (s "AND")) with true.
  change (str_eqb (s "OR") (s "AND")) with false.
  change (str_eqb (s "OR") (s "OR")) with true.
  cbn. destruct (evaluate B) as [[|]| |]; reflexivity.
Qed.

(** C2. The alternation tries [>] before [>=] and [<] before [<=], and what
    follows the shorter operator always matches: the groups never hold a
    two-character ordering operator, and [$.count >= 5] is read as [>]
    applied to the text [= 5], which raises against the number 10. *)
Theorem longer_operators_are_never_matched :
  re_match (s "$.count >= 5") = Some (s "count", s ">", s "= 5") /\
  re_match (s "$.count <= 5") = Some (s "count", s "<", s "= 5") /\
  Expr_test (Expr_init (s "$.count >= 5")) test_object = Raise TypeError /\
  (forall x field operator value,
     re_match x = Some (field, operator, value) ->
     In operator four_operators).
Proof.
  repeat split; try (vm_compute; reflexivity).
  intros x field operator value H.
  pose proof (re_match_operator x) as Hx. unfold re_match in H.
  unfold first_of in Hx. rewrite H in Hx. exact Hx.
Qed.

(** C3, as stated, fails: [1+1] is none of the typed literals and is
    evaluated to the integer 2, so that [$.count == 9+1] holds of a count
    of 10. *)
Lemma sum_is_evaluated :
  typed_literal_text (s "1+1") = false /\
  evaluated_value_of (s "1+1") = Ret (VInt 2) /\
  Expr_test (Expr_init (s "$.count == 9+1")) test_object = Ret true /\
  ~ (forall t, typed_literal_text t = false ->
               evaluated_value_of t = Ret (VStr t)).
Proof.
  repeat split; try reflexivity.
  intros H. specialize (H (s "1+1") eq_refl). vm_compute in H. discriminate H.
Qed.

(** C3, amended. The literal is the text itself, as a string, whenever the
    evaluator raises on the text, and it raises on every bare word: a
    clause that ends in a bare word compares the field with that string.
    The literal never raises; [1+1] is evaluated to 2. *)
Theorem bare_word_is_a_string (t : str) :
  is_bare_word t = true ->
  evaluated_value_of t = Ret (VStr t) /\
  (forall o field operator,
     is_field field = true -> In operator four_operators ->
     evaluate_comparison o (clause field operator t) =
     obind (pydash_get o field) (fun field_value =>
       apply_operator operator field_value (VStr t))) /\
  (forall value e,
     py_eval value [(s "__builtins__", VDict [])] [] = Raise e ->
     evaluated_value_of value = Ret (VStr value)) /\
  (forall value e, evaluated_value_of value <> Raise e) /\
  evaluated_value_of (s "1+1") = Ret (VInt 2).
Proof.
  intros H. pose proof (bare_word_evaluates_to_itself t H) as E.
  split; [exact E|]. split; [|split; [|split]].
  - intros o field operator Hf Hop.
    rewrite evaluate_comparison_clause; try assumption.
    + now rewrite E.
    + apply identifier_value_text. now apply andb_prop in H as [H _].
  - intros value e Hv. unfold evaluated_value_of. now rewrite Hv.
  - apply evaluated_value_of_no_raise.
  - reflexivity.
Qed.

(** The bare word of the specification's example. *)
Lemma bare_word_is_a_string_witness :
  is_bare_word (s "some_bare_word") = true /\
  evaluate_comparison (VDict [(s "x", VStr (s "some_bare_word"))])
    (s "$.x == some_bare_word") = Ret true.
Proof.
  split; [reflexivity|].
  destruct (bare_word_is_a_string (s "some_bare_word") eq_refl) as (_ & H & _).
  exact (H (VDict [(s "x", VStr (s "some_bare_word"))]) (s "x") (s "==")
           eq_refl (or_introl eq_refl)).
Defined.

(** C4, as stated, fails: a boolean and an integer are neither both numbers
    nor both strings for the specification, and Python orders them. *)
Lemma boolean_is_ordered_with_integer :
  ~ (forall operator field_value literal,
       In operator ordering_operators ->
       field_value = VNone \/ spec_comparable field_value literal = false ->
       apply_operator operator field_value literal = Raise TypeError) /\
  Expr_test (Expr_init (s "$.active > 0")) test_object = Ret true.
Proof.
  split; [|reflexivity]. intros H.
  specialize (H (s ">") (VBool true) (VInt 0) (or_introl eq_refl)
                (or_intror eq_refl)).
  vm_compute in H. discriminate H.
Qed.

Lemma py_order_numbers (op : order_op) (a b : pyobj) :
  class_of a = CNumber -> class_of b = CNumber ->
  exists r, py_order op a b = Ret r.
Proof.
  destruct a as [ | x | x | x | x | l | kvs]; try discriminate;
    destruct b as [ | y | y | y | y | l' | kvs']; try discriminate;
    intros _ _; cbn [py_order as_number]; try (eexists; reflexivity);
    unfold float_order; cbn [as_float];
    destruct (float_compare _ _); eexists; reflexivity.
Qed.

Lemma py_order_strings (op : order_op) (a b : pyobj) :
  class_of a = CString -> class_of b = CString ->
  exists r, py_order op a b = Ret r.
Proof.
  destruct a; try discriminate; destruct b; try discriminate.
  intros _ _. eexists. reflexivity.
Qed.

(** C4, amended. An ordering operator raises [TypeError] whenever the field
    is absent ([None]) or the operands are not two numbers (integers, floats
    and booleans), two strings or two lists; so does [$.missing.field > 1]
    on the empty object. Two numbers are always ordered, and so are two
    strings: a boolean with an integer in [$.active > 0], an integer with a
    float in [$.count > 9.5]. *)
Theorem ordering_raises_on_unorderable (operator : str) (field_value literal : pyobj) :
  In operator ordering_operators ->
  (field_value = VNone \/ orderable field_value literal = false ->
   apply_operator operator field_value literal = Raise TypeError) /\
  (class_of field_value = CNumber -> class_of literal = CNumber ->
   exists b, apply_operator operator field_value literal = Ret b) /\
  (class_of field_value = CString -> class_of literal = CString ->
   exists b, apply_operator operator field_value literal = Ret b) /\
  Expr_test (Expr_init (s "$.missing.field > 1")) (VDict []) = Raise TypeError /\
  Expr_test (Expr_init (s "$.active > 0")) test_object = Ret true /\
  Expr_test (Expr_init (s "$.count > 9.5")) test_object = Ret true.
Proof.
  intros Hop.
  assert (E : exists op, forall a b, apply_operator operator a b = py_order op a b).
  { each_operator Hop;
      [exists OpGt | exists OpLt | exists OpGe | exists OpLe]; reflexivity. }
  destruct E as [op E]. rewrite E.
  split; [|split; [|split; [|repeat split; reflexivity]]].
  - intros H.
    assert (Hno : orderable field_value literal = false)
      by (destruct H as [->|H]; [reflexivity | exact H]).
    destruct field_value, literal; try discriminate Hno; reflexivity.
  - apply py_order_numbers.
  - apply py_order_strings.
Qed.

(** The absent field against the integer 1, and the integer 10 against the
    float 9.5. *)
Lemma ordering_raises_on_unorderable_witness :
  In (s ">") ordering_operators /\
  orderable VNone (VInt 1) = false /\
  apply_operator (s ">") VNone (VInt 1) = Raise TypeError /\
  evaluated_value_of (s "9.5") = Ret (VFloat (FFinite 19 (-1))) /\
  apply_operator (s ">") (VInt 10) (VFloat (FFinite 19 (-1))) = Ret true.
Proof.
  split; [now left|]. split; [reflexivity|].
  destruct (ordering_raises_on_unorderable (s ">") VNone (VInt 1)
              (or_introl eq_refl)) as (H & _).
  split; [exact (H (or_introl eq_refl))|]. split; reflexivity.
Defined.

(** C5, as stated, fails: [True] and [1] differ in type and are equal, and
    an absent field equals the literal [None]. *)
Lemma boolean_equals_integer :
  ~ (forall field_value literal,
       literal_type_eqb (type_of field_value) (type_of literal) = false ->
       apply_operator (s "==") field_value literal = Ret false /\
       apply_operator (s "!=") field_value literal = Ret true) /\
  Expr_test (Expr_init (s "$.active == 1")) test_object = Ret true /\
  Expr_test (Expr_init (s "$.missing.field == None")) (VDict []) = Ret true.
Proof.
  split; [|split; reflexivity]. intros H.
  destruct (H (VBool true) (VInt 1) eq_refl) as [H1 _].
  vm_compute in H1. discriminate H1.
Qed.

Lemma py_eq_same_class (a b : pyobj) :
  py_class_eqb (class_of a) (class_of b) = false -> py_eq a b = false.
Proof. destruct a, b; try discriminate; reflexivity. Qed.

(** C5, amended. [==] and [!=] never raise, and [!=] is the negation of
    [==]. Operands of different classes are unequal, a boolean counting as a
    number and the absent field as [None]; [$.missing.field == 1] on the
    empty object is false. *)
Theorem equality_never_raises (field_value literal : pyobj) :
  apply_operator (s "==") field_value literal = Ret (py_eq field_value literal) /\
  apply_operator (s "!=") field_value literal
    = Ret (negb (py_eq field_value literal)) /\
  (py_class_eqb (class_of field_value) (class_of literal) = false ->
   apply_operator (s "==") field_value literal = Ret false /\
   apply_operator (s "!=") field_value literal = Ret true) /\
  Expr_test (Expr_init (s "$.missing.field == 1")) (VDict []) = Ret false.
Proof.
  split; [reflexivity|]. split; [reflexivity|]. split; [|reflexivity].
  intros H. unfold apply_operator.
  change (str_eqb (s "==") (s "==")) with true.
  change (str_eqb (s "!=") (s "==")) with false.
  change (str_eqb (s "!=") (s "!=")) with true. cbn iota.
  unfold py_ne. rewrite (py_eq_same_class _ _ H). split; reflexivity.
Qed.

(** The absent field against the integer 1. *)
Lemma equality_never_raises_witness :
  py_class_eqb (class_of VNone) (class_of (VInt 1)) = false /\
  apply_operator (s "==") VNone (VInt 1) = Ret false /\
  apply_operator (s "!=") VNone (VInt 1) = Ret true.
Proof.
  split; [reflexivity|].
  apply (equality_never_raises VNone (VInt 1)). reflexivity.
Defined.

(** C6, as stated, fails: [null] is not a name of Python, the evaluator
    raises on it and the literal is the string; a field that is [None] is
    not equal to it. *)
Lemma null_is_not_the_null_literal :
  evaluated_value_of (s "null") <> Ret VNone /\
  Expr_test (Expr_init (s "$.x == null")) (VDict [(s "x", VNone)]) = Ret false /\
  Expr_test (Expr_init (s "$.x == null")) (VDict [(s "x", VStr (s "null"))])
    = Ret true.
Proof. split; [discriminate | split; reflexivity]. Qed.

(** C6, amended. [None] is the null literal; [null] is the string of its
    four letters. A clause that ends in either compares the field with that
    literal. *)
Theorem none_is_null_and_null_is_a_string :
  evaluated_value_of (s "None") = Ret VNone /\
  evaluated_value_of (s "null") = Ret (VStr (s "null")) /\
  (forall o field operator,
     is_field field = true -> In operator four_operators ->
     evaluate_comparison o (clause field operator (s "None")) =
       obind (pydash_get o field) (fun field_value =>
         apply_operator operator field_value VNone) /\
     evaluate_comparison o (clause field operator (s "null")) =
       obind (pydash_get o field) (fun field_value =>
         apply_operator operator field_value (VStr (s "null")))).
Proof.
  repeat split; try reflexivity;
    rewrite evaluate_comparison_clause; try assumption; reflexivity.
Qed.

(** A field that is [None], against both tokens. *)
Lemma none_is_null_and_null_is_a_string_witness :
  evaluate_comparison (VDict [(s "x", VNone)]) (s "$.x == None") = Ret true /\
  evaluate_comparison (VDict [(s "x", VNone)]) (s "$.x == null") = Ret false.
Proof.
  destruct none_is_null_and_null_is_a_string as (_ & _ & H).
  exact (H (VDict [(s "x", VNone)]) (s "x") (s "==") eq_refl (or_introl eq_refl)).
Defined.

(** ** Keywords inside quotes *)

Lemma quote_is_no_space (c : ascii) :
  is_quote c = true -> Ascii.eqb (upper_char c) " " = false.
Proof.
  destruct c as [[] [] [] [] [] [] [] []]; vm_compute; intros H;
    try discriminate H; reflexivity.
Qed.

Lemma slice_here (pre rest : str) (k : nat) :
  slice (pre ++ rest) (length pre) (length pre + k) = firstn k rest.
Proof.
  unfold slice. replace (length pre + k - length pre) with k by lia.
  now rewrite skipn_app, skipn_all, Nat.sub_diag.
Qed.

Lemma keyword_at_quote (pre rest : str) (c : ascii) :
  is_quote c = true -> keyword_at (pre ++ c :: rest) (length pre) = false.
Proof.
  intros H. unfold keyword_at. rewrite !slice_here.
  cbn [firstn upper map str_eqb s list_ascii_of_string].
  now rewrite (quote_is_no_space c H).
Qed.

Lemma flag_set_here (pre rest : str) :
  flag_set (pre ++ rest) (length pre) = Nat.odd (length (filter is_quote pre)).
Proof.
  unfold flag_set.
  now rewrite firstn_app, firstn_all, Nat.sub_diag, firstn_0, app_nil_r.
Qed.

Lemma keywords_only_at (inside : str -> nat -> bool) (x : str) (i : nat) :
  keywords_only inside x = true -> i < length x ->
  keyword_at x i = true -> inside x i = true.
Proof.
  unfold keywords_only, positions. intros H Hi K.
  assert (Hin : In i (seq 0 (length x))) by (apply in_seq; lia).
  pose proof (proj1 (forallb_forall _ _) H i Hin) as Hi'. cbn beta in Hi'.
  now rewrite K in Hi'.
Qed.

Lemma split_step_idle (pre rest : str) (c : ascii) (st : split_state) :
  keywords_only flag_set (pre ++ c :: rest) = true ->
  in_quotes st = Nat.odd (length (filter is_quote pre)) ->
  split_step (pre ++ c :: rest) (length pre) c st =
  idle (Nat.odd (length (filter is_quote (pre ++ [c])))) st.
Proof.
  intros Hall Hflag.
  assert (Hq : (if is_quote c then negb (in_quotes st) else in_quotes st) =
               Nat.odd (length (filter is_quote (pre ++ [c])))).
  { rewrite filter_app, length_app, Hflag. cbn [filter].
    destruct (is_quote c); cbn [length].
    - now rewrite Nat.add_1_r, Nat.odd_succ, Nat.negb_odd.
    - now rewrite Nat.add_0_r. }
  assert (Hk : keyword_at (pre ++ c :: rest) (length pre) = true ->
               is_quote c = false /\ in_quotes st = true).
  { intros K. destruct (is_quote c) eqn:Q.
    - now rewrite keyword_at_quote in K.
    - split; [reflexivity|]. rewrite Hflag, <- (flag_set_here pre (c :: rest)).
      apply (keywords_only_at _ _ _ Hall); [|exact K].
      rewrite length_app. cbn. lia. }
  unfold split_step, idle. rewrite Hq.
  unfold keyword_at in Hk.
  destruct (str_eqb (upper (slice _ _ (_ + 5))) _) eqn:A.
  - destruct (Hk eq_refl) as [Q T]. rewrite Q, T in Hq. now rewrite <- Hq.
  - destruct (str_eqb (upper (slice _ _ (_ + 4))) _) eqn:O.
    + destruct (Hk eq_refl) as [Q T]. rewrite Q, T in Hq. now rewrite <- Hq.
    + now destruct (negb _ && _).
Qed.

Lemma split_loop_idle (expr : str) :
  keywords_only flag_set expr = true ->
  forall rest pre st,
    expr = pre ++ rest ->
    in_quotes st = Nat.odd (length (filter is_quote pre)) ->
    exists quoted,
      split_loop expr (length pre) rest st = idle quoted st.
Proof.
  intros Hall. induction rest as [|c rest IH]; intros pre st -> Hflag.
  - exists (in_quotes st). now destruct st.
  - cbn [split_loop]. rewrite (split_step_idle pre rest c st Hall Hflag).
    replace (S (length pre)) with (length (pre ++ [c]))
      by (rewrite length_app; cbn; lia).
    destruct (IH (pre ++ [c]) (idle (Nat.odd (length (filter is_quote (pre ++ [c])))) st))
      as [quoted E].
    + now rewrite <- app_assoc.
    + reflexivity.
    + exists quoted. rewrite E. reflexivity.
Qed.

(** C7, as stated, fails: the keyword of [mixed_quotes] lies between the
    opening and the closing double quote, and the splitter cuts there,
    because the apostrophe before the keyword has cleared its flag. *)
Lemma keyword_between_mixed_quotes_is_split :
  keywords_only between_quotes mixed_quotes = true /\
  split_on_logical_ops mixed_quotes =
    ([s "$.a == " ++ dquote :: s "it's"; s "b" ++ [dquote]], [s "AND"]) /\
  ~ (forall x, keywords_only between_quotes x = true ->
               split_on_logical_ops x = ([x], [])).
Proof.
  split; [reflexivity|]. split; [reflexivity|].
  intros H. specialize (H mixed_quotes eq_refl). vm_compute in H. discriminate H.
Qed.

(** C7, amended. When every keyword of the text follows an odd number of
    quote characters, of either kind, the splitter cuts nowhere: the text is
    one clause and there is no connector. *)
Theorem keywords_under_the_flag_are_not_split (expr : str) :
  keywords_only flag_set expr = true ->
  split_on_logical_ops expr = ([expr], []).
Proof.
  intros H. unfold split_on_logical_ops.
  destruct (split_loop_idle expr H expr [] split_start eq_refl eq_refl)
    as [quoted E].
  cbn [length] in E. rewrite E. reflexivity.
Qed.

(** A keyword inside one pair of double quotes. *)
Lemma keywords_under_the_flag_are_not_split_witness :
  keywords_only flag_set (s "$.a == " ++ quoted "x AND y") = true /\
  split_on_logical_ops (s "$.a == " ++ quoted "x AND y") =
  ([s "$.a == " ++ quoted "x AND y"], []).
Proof.
  split; [reflexivity|].
  apply (keywords_under_the_flag_are_not_split (s "$.a == " ++ quoted "x AND y")).
  reflexivity.
Defined.

(* ================================================================== *)
(** * Further properties *)

(** ** What the pattern matches *)

Lemma greedy_star_in (p : ascii -> bool) (x : str) :
  forall w, In w (greedy_star p x) ->
            x = fst w ++ snd w /\ forallb p (fst w) = true.
Proof.
  induction x as [|c x IH]; intros w; cbn [greedy_star].
  - intros [<-|[]]. split; reflexivity.
  - destruct (p c) eqn:Hc.
    + intros H. apply in_app_or in H as [H|[<-|[]]]; [|split; reflexivity].
      apply in_map_iff in H as (w' & <- & Hw').
      destruct (IH w' Hw') as [E F]. cbn. rewrite Hc, F. split; [|reflexivity].
      now rewrite E at 1.
    + intros [<-|[]]. split; reflexivity.
Qed.

Lemma greedy_plus_in (p : ascii -> bool) (x : str) :
  forall w, In w (greedy_plus p x) ->
            x = fst w ++ snd w /\ forallb p (fst w) = true /\ fst w <> [].
Proof.
  intros w. destruct x as [|c x]; cbn [greedy_plus]; [intros []|].
  destruct (p c) eqn:Hc; [|intros []].
  intros H. apply in_map_iff in H as (w' & <- & Hw').
  destruct (greedy_star_in p x w' Hw') as [E F]. cbn. rewrite Hc, F.
  repeat split; [now rewrite E at 1 | discriminate].
Qed.

Lemma literal_in (q x : str) :
  forall w, In w (literal q x) -> fst w = q /\ x = q ++ snd w.
Proof.
  intros w. unfold literal. destruct (strip_prefix q x) as [r|] eqn:E; [|intros []].
  intros [<-|[]]. split; [reflexivity | now apply strip_prefix_app].
Qed.

Lemma alternation_in (ps : list str) (x : str) :
  forall w, In w (alternation ps x) -> In (fst w) ps /\ x = fst w ++ snd w.
Proof.
  intros w H. unfold alternation in H. apply in_flat_map in H as (q & Hq & H).
  apply literal_in in H as [-> E]. split; assumption.
Qed.

(** The first way of a greedy run is the longest one. *)
Lemma greedy_star_first (p : ascii -> bool) (x : str) (w : str * str) :
  hd_error (greedy_star p x) = Some w -> stops p (snd w).
Proof.
  revert w. induction x as [|c x IH]; intros w; cbn [greedy_star].
  - intros [= <-]. exact I.
  - destruct (p c) eqn:Hc.
    + destruct (greedy_star p x) as [|w' ws] eqn:E;
        [now apply greedy_star_nonempty in E|].
      cbn. intros [= <-]. cbn. now apply IH.
    + intros [= <-]. exact Hc.
Qed.

Lemma greedy_plus_first (p : ascii -> bool) (x : str) (w : str * str) :
  hd_error (greedy_plus p x) = Some w -> stops p (snd w).
Proof.
  destruct x as [|c x]; cbn [greedy_plus]; [discriminate|].
  destruct (p c); [|discriminate].
  destruct (greedy_star p x) as [|w' ws] eqn:E; [discriminate|].
  cbn. intros [= <-]. cbn. apply (greedy_star_first p x). now rewrite E.
Qed.

Lemma pattern_ways_first (x : str) : first_of (reads_as x) (pattern_ways x).
Proof.
  unfold pattern_ways.
  apply first_of_flat_map. intros w0 H0. apply literal_in in H0 as [_ E0].
  apply first_of_flat_map. intros w1 H1.
  apply greedy_plus_in in H1 as (E1 & F1 & N1).
  apply first_of_flat_map. intros w2 H2. apply greedy_star_in in H2 as [E2 F2].
  apply first_of_flat_map. intros w3 H3. apply alternation_in in H3 as [_ E3].
  apply first_of_flat_map. intros w4 H4. apply greedy_star_in in H4 as [E4 F4].
  unfold first_of.
  destruct (greedy_plus is_not_newline (snd w4)) as [|w5 ws] eqn:E; [exact I|].
  cbn [map hd_error].
  assert (H5 : In w5 (greedy_plus is_not_newline (snd w4)))
    by (rewrite E; now left).
  apply greedy_plus_in in H5 as (E5 & F5 & N5).
  assert (S5 : stops is_not_newline (snd w5))
    by (apply (greedy_plus_first _ (snd w4)); now rewrite E).
  exists (fst w2), (fst w4), (snd w5). repeat split; try assumption.
  - now rewrite E0, E1, E2, E3, E4, E5 at 1.
  - unfold is_field. rewrite F1, andb_true_r. now destruct (fst w1).
Qed.

(** X1. Whatever the pattern matches, it has read: the groups are a field
    of word characters and dots, one of the four operators and a value
    without line feed that runs to the end of its line, and the text is
    these three behind [$.], with white space only between them. *)
Theorem re_match_reads_back (x field operator value : str) :
  re_match x = Some (field, operator, value) ->
  In operator four_operators /\
  exists before after rest,
    x = s "$." ++ field ++ before ++ operator ++ after ++ value ++ rest /\
    is_field field = true /\ is_blank before = true /\
    is_blank after = true /\ value <> [] /\
    forallb is_not_newline value = true /\ stops is_not_newline rest.
Proof.
  intros H. split.
  - pose proof (re_match_operator x) as Hx. unfold re_match in H.
    unfold first_of in Hx. now rewrite H in Hx.
  - pose proof (pattern_ways_first x) as Hx. unfold re_match in H.
    unfold first_of in Hx. now rewrite H in Hx.
Qed.

Lemma re_match_reads_back_witness :
  re_match (s "$.nested.field==123") = Some (s "nested.field", s "==", s "123") /\
  In (s "==") four_operators.
Proof.
  split; [reflexivity|].
  exact (proj1 (re_match_reads_back (s "$.nested.field==123")
                  (s "nested.field") (s "==") (s "123") eq_refl)).
Defined.

Lemma space_is_no_word (c : ascii) :
  is_space c = true -> is_word_or_dot c = false.
Proof.
  destruct c as [[] [] [] [] [] [] [] []]; vm_compute; intros H;
    try discriminate H; reflexivity.
Qed.

Lemma operator_stops (operator rest : str) :
  In operator four_operators ->
  stops is_word_or_dot (operator ++ rest) /\ stops is_space (operator ++ rest).
Proof. intros H. each_operator H; split; reflexivity. Qed.

Lemma blank_then_operator_stops (before operator rest : str) :
  is_blank before = true -> In operator four_operators ->
  stops is_word_or_dot (before ++ operator ++ rest).
Proof.
  intros Hb Hop. destruct before as [|c before].
  - exact (proj1 (operator_stops _ _ Hop)).
  - cbn in *. apply andb_prop in Hb as [Hc _]. now apply space_is_no_word.
Qed.

Lemma re_match_written (field before operator after value rest : str) :
  is_field field = true -> is_blank before = true ->
  In operator four_operators -> is_blank after = true ->
  value <> [] -> forallb is_not_newline value = true ->
  stops is_space value -> stops is_not_newline rest ->
  re_match (s "$." ++ field ++ before ++ operator ++ after ++ value ++ rest)
  = Some (field, operator, value).
Proof.
  intros Hf Hb Hop Ha Hv Hvs Hv0 Hrest. unfold re_match, pattern_ways.
  apply andb_prop in Hf as [Hf1 Hf2].
  eapply hd_error_flat_map; [reflexivity|]. cbn [snd].
  eapply hd_error_flat_map.
  { apply greedy_plus_head;
      [destruct field; [discriminate Hf1 | discriminate] | exact Hf2 |].
    now apply blank_then_operator_stops. }
  cbn [snd].
  eapply hd_error_flat_map.
  { apply greedy_star_head; [exact Hb | exact (proj2 (operator_stops _ _ Hop))]. }
  cbn [snd].
  eapply hd_error_flat_map; [apply alternation_head, Hop|]. cbn [snd].
  eapply hd_error_flat_map.
  { apply greedy_star_head; [exact Ha | now apply stops_app]. }
  cbn [snd fst].
  now rewrite (hd_error_map _ _ _ (greedy_plus_head _ value rest Hv Hvs Hrest)).
Qed.

(** X2. What is written is read: a field, one of the four operators and a
    value, with any white space (none included) on both sides of the
    operator, are the groups of the match; text behind a line feed is left
    alone. *)
Theorem re_match_round_trip (field before operator after value rest : str) :
  is_field field = true -> is_blank before = true ->
  In operator four_operators -> is_blank after = true ->
  value <> [] -> forallb is_not_newline value = true ->
  stops is_space value -> stops is_not_newline rest ->
  re_match (s "$." ++ field ++ before ++ operator ++ after ++ value ++ rest)
  = Some (field, operator, value).
Proof. apply re_match_written. Qed.

Lemma re_match_round_trip_witness :
  re_match (s "$.count>5") = Some (s "count", s ">", s "5").
Proof.
  exact (re_match_round_trip (s "count") [] (s ">") [] (s "5") []
           eq_refl eq_refl (or_intror (or_intror (or_introl eq_refl))) eq_refl
           ltac:(discriminate) eq_refl eq_refl I).
Defined.

(** ** The turns of the splitter *)

Lemma flag_snoc (pre : str) (c : ascii) :
  flag (pre ++ [c]) = if is_quote c then negb (flag pre) else flag pre.
Proof.
  unfold flag. rewrite filter_app, length_app. cbn [filter].
  destruct (is_quote c); cbn [length].
  - now rewrite Nat.add_1_r, Nat.odd_succ, Nat.negb_odd.
  - now rewrite Nat.add_0_r.
Qed.

Lemma firstn_snoc (pre rest : str) (c : ascii) :
  firstn (S (length pre)) (pre ++ c :: rest) = pre ++ [c].
Proof.
  replace (pre ++ c :: rest) with ((pre ++ [c]) ++ rest)
    by (now rewrite <- app_assoc).
  replace (S (length pre)) with (length (pre ++ [c]))
    by (rewrite length_app; cbn; lia).
  now rewrite firstn_app, firstn_all, Nat.sub_diag, firstn_0, app_nil_r.
Qed.

(** One turn, by cases: it records [AND], or [OR], or nothing. *)
Lemma split_step_cases (pre rest : str) (c : ascii) (st : split_state) :
  in_quotes st = flag pre ->
  split_step (pre ++ c :: rest) (length pre) c st =
  let x := pre ++ c :: rest in
  let i := length pre in
  if cuts_at x i then
    if str_eqb (upper (slice x i (i + 5))) (s " AND ")
    then record x i (s "AND") 5 (flag (pre ++ [c])) st
    else record x i (s "OR") 4 (flag (pre ++ [c])) st
  else idle (flag (pre ++ [c])) st.
Proof.
  intros Hflag. cbv zeta. unfold split_step, cuts_at, keyword_at.
  rewrite firstn_snoc, flag_snoc, Hflag.
  destruct (negb _); cbn [andb]; [|reflexivity].
  destruct (_ <=? _); cbn [andb]; [|reflexivity].
  destruct (str_eqb (upper (slice _ _ (_ + 5))) _); cbn [orb]; [reflexivity|].
  destruct (str_eqb (upper (slice _ _ (_ + 4))) _); reflexivity.
Qed.

(** A run of turns that record nothing. *)
Lemma split_loop_idle_run (x : str) :
  forall run pre post st,
    x = pre ++ run ++ post ->
    in_quotes st = flag pre ->
    (forall i, length pre <= i < length pre + length run -> cuts_at x i = false) ->
    split_loop x (length pre) (run ++ post) st =
    split_loop x (length pre + length run) post (idle (flag (pre ++ run)) st).
Proof.
  induction run as [|c run IH]; intros pre post st Hx Hflag Hno.
  - cbn [app length]. rewrite Nat.add_0_r, app_nil_r.
    unfold idle. rewrite <- Hflag. now destruct st.
  - subst x. cbn [app split_loop length] in *.
    rewrite split_step_cases by exact Hflag. cbv zeta.
    rewrite (Hno (length pre)) by (cbn; lia).
    replace (S (length pre)) with (length (pre ++ [c]))
      by (rewrite length_app; cbn; lia).
    rewrite (IH (pre ++ [c]) post).
    + rewrite length_app. cbn [length].
      replace (length pre + 1 + length run) with (length pre + S (length run))
        by lia.
      now rewrite <- app_assoc.
    + now rewrite <- app_assoc.
    + reflexivity.
    + intros i Hi. apply Hno. rewrite length_app in Hi. cbn in Hi |- *. lia.
Qed.

(** Without a turn that cuts, the text is one clause. *)
Lemma split_without_cut (x : str) :
  (forall i, i < length x -> cuts_at x i = false) ->
  split_on_logical_ops x = ([x], []).
Proof.
  intros Hno. unfold split_on_logical_ops.
  pose proof (split_loop_idle_run x x [] [] split_start) as H.
  rewrite app_nil_r in H. cbn [length app Nat.add] in H.
  rewrite H; [reflexivity | reflexivity | reflexivity |].
  intros i Hi. apply Hno. lia.
Qed.

(** ** One clause *)

Lemma lstrip_length (x : str) : length (lstrip x) <= length x.
Proof.
  induction x as [|c x IH]; cbn; [lia|]. destruct (is_space c); cbn; lia.
Qed.

Lemma strip_length (x : str) : length (strip x) <= length x.
Proof.
  unfold strip, rstrip. rewrite length_rev.
  pose proof (lstrip_length (rev (lstrip x))) as H1.
  pose proof (lstrip_length x) as H2. rewrite length_rev in H1. lia.
Qed.

Lemma re_match_length (x : str) (t : str * str * str) :
  re_match x = Some t -> 5 <= length x.
Proof.
  intros H. unfold re_match in H.
  pose proof (pattern_ways_first x) as Hr.
  pose proof (re_match_operator x) as Ho.
  unfold first_of in Hr, Ho. rewrite H in Hr, Ho.
  destruct t as [[field operator] value]. cbn in Ho.
  destruct Hr as (before & after & rest & -> & Hf & _ & _ & Hv & _).
  rewrite !length_app.
  assert (1 <= length field) by (destruct field; [discriminate Hf | cbn; lia]).
  assert (1 <= length value) by (destruct value; [congruence | cbn; lia]).
  assert (1 <= length operator) by (each_operator Ho; cbn; lia).
  cbn [length s list_ascii_of_string]. lia.
Qed.

(** A text that the splitter leaves whole is evaluated as one clause. *)
Lemma test_of_one_clause (a : str) (o : pyobj) :
  split_on_logical_ops a = ([a], []) ->
  Expr_test_traced (Expr_init a) o = ([a], evaluate_comparison o a).
Proof.
  intros H. unfold Expr_test_traced, test_with. cbn [args Expr_init].
  destruct (negb _ && negb _); [reflexivity|]. rewrite H.
  unfold tbind, call. cbn [fst snd for_loop].
  destruct (evaluate_comparison o a); reflexivity.
Qed.

(** X3. A text of fewer than five characters, the empty text included, is
    no expression: [test] evaluates it as one clause and raises the format
    error on it. *)
Theorem short_text_is_malformed (a : str) (o : pyobj) :
  length a < 5 ->
  reached (Expr_init a) o = [a] /\
  Expr_test (Expr_init a) o = Raise (invalid_format a).
Proof.
  intros Hlen. unfold reached, Expr_test.
  rewrite test_of_one_clause.
  - split; [reflexivity|]. cbn [snd]. unfold evaluate_comparison.
    destruct (re_match (strip a)) as [t|] eqn:E; [|reflexivity].
    apply re_match_length in E. pose proof (strip_length a). lia.
  - apply split_without_cut. intros i Hi. unfold cuts_at.
    replace (i + 5 <=? length a) with false
      by (symmetry; apply Nat.leb_gt; lia).
    now rewrite andb_false_r.
Qed.

Lemma short_text_is_malformed_witness :
  reached (Expr_init []) (VDict []) = [[]] /\
  Expr_test (Expr_init []) (VDict []) = Raise (invalid_format []).
Proof.
  apply (short_text_is_malformed [] (VDict [])). cbn. lia.
Defined.

(** X4. A keyword under the flag changes nothing of the result: when every
    keyword of the text follows an odd number of quote characters, [test]
    evaluates the whole text as one clause. *)
Theorem quoted_keywords_leave_one_clause (a : str) (o : pyobj) :
  keywords_only flag_set a = true ->
  reached (Expr_init a) o = [a] /\
  Expr_test (Expr_init a) o = evaluate_comparison o a.
Proof.
  intros H. unfold reached, Expr_test. rewrite test_of_one_clause.
  - split; reflexivity.
  - unfold split_on_logical_ops.
    destruct (split_loop_idle a H a [] split_start eq_refl eq_refl)
      as [quoted E].
    cbn [length] in E. rewrite E. reflexivity.
Qed.

Lemma quoted_keywords_leave_one_clause_witness :
  Expr_test (Expr_init (s "$.foo == " ++ quoted "x OR y"))
    (VDict [(s "foo", VStr (s "x OR y"))]) = Ret true.
Proof.
  exact (proj2 (quoted_keywords_leave_one_clause
                  (s "$.foo == " ++ quoted "x OR y")
                  (VDict [(s "foo", VStr (s "x OR y"))]) eq_refl)).
Defined.

(** ** The shortcut of [test] *)

Lemma str_eqb_eq (x y : str) : str_eqb x y = true <-> x = y.
Proof.
  revert y. induction x as [|a x IH]; intros [|b y]; cbn; split;
    try discriminate; try reflexivity.
  - intros H. apply andb_prop in H as [H1 H2].
    apply Ascii.eqb_eq in H1. apply IH in H2. now subst.
  - intros [= -> ->]. rewrite Ascii.eqb_refl. now apply IH.
Qed.

Lemma upper_slice (x : str) (i j : nat) :
  upper (slice x i j) = slice (upper x) i j.
Proof. unfold upper, slice. now rewrite skipn_map, firstn_map. Qed.

Lemma strip_prefix_self (p r : str) : strip_prefix p (p ++ r) = Some r.
Proof.
  induction p as [|a p IH]; cbn; [reflexivity|]. now rewrite Ascii.eqb_refl.
Qed.

Lemma contains_skipn (p : str) :
  forall i y r, strip_prefix p (skipn i y) = Some r -> contains p y = true.
Proof.
  induction i as [|i IH]; intros y r H.
  - cbn [skipn] in H. destruct y; cbn [contains]; now rewrite H.
  - destruct y as [|c y]; cbn [skipn] in H.
    + cbn [contains]. now rewrite H.
    + cbn [contains]. destruct (strip_prefix p (c :: y)); [reflexivity|].
      exact (IH y r H).
Qed.

(** A window of the splitter that holds a keyword is an occurrence of the
    keyword in the upper-case text. *)
Lemma window_is_contained (p x : str) (i : nat) :
  str_eqb (upper (slice x i (i + length p))) p = true ->
  contains p (upper x) = true.
Proof.
  intros H. apply str_eqb_eq in H. rewrite upper_slice in H. unfold slice in H.
  replace (i + length p - i) with (length p) in H by lia.
  apply (contains_skipn p i (upper x) (skipn (length p) (skipn i (upper x)))).
  rewrite <- (firstn_skipn (length p) (skipn i (upper x))) at 1.
  rewrite H. apply strip_prefix_self.
Qed.

Lemma split_without_keyword (a : str) :
  contains (s " AND ") (upper a) = false ->
  contains (s " OR ") (upper a) = false ->
  split_on_logical_ops a = ([a], []).
Proof.
  intros HA HO. apply split_without_cut. intros i _. unfold cuts_at, keyword_at.
  destruct (str_eqb (upper (slice a i (i + 5))) (s " AND ")) eqn:EA.
  - apply (window_is_contained (s " AND ")) in EA. congruence.
  - destruct (str_eqb (upper (slice a i (i + 4))) (s " OR ")) eqn:EO.
    + apply (window_is_contained (s " OR ")) in EO. congruence.
    + now rewrite andb_false_r.
Qed.

(** X5. The first [if] of [test] is a shortcut and no more: on a text
    without keyword the splitter returns the text whole and the fold has
    nothing to do, so [test] is the splitter and the fold on every text. *)
Theorem shortcut_changes_nothing (self : Expr) (o : pyobj) :
  Expr_test_traced self o = test_without_shortcut self o.
Proof.
  unfold Expr_test_traced, test_with, test_without_shortcut.
  destruct (negb (contains (s " AND ") (upper (args self)))) eqn:HA;
    [|reflexivity].
  destruct (negb (contains (s " OR ") (upper (args self)))) eqn:HO;
    [|reflexivity].
  apply negb_true_iff in HA, HO. cbn [andb].
  rewrite (split_without_keyword _ HA HO).
  unfold tbind, call. cbn [fst snd for_loop].
  destruct (evaluate_comparison o (args self)); reflexivity.
Qed.

(** ** The exceptions of [test] *)

Lemma apply_operator_raises (operator : str) (field_value literal : pyobj) (e : exn) :
  In operator four_operators ->
  apply_operator operator field_value literal = Raise e -> e = TypeError.
Proof.
  intros Hop. each_operator Hop; unfold apply_operator;
    repeat match goal with
           | |- context [str_eqb (s ?a) (s ?b)] =>
               let v := eval vm_compute in (str_eqb (s a) (s b)) in
               change (str_eqb (s a) (s b)) with v
           end; cbn iota; try discriminate; apply py_order_raises.
Qed.

(** What a clause raises: the format error, when the pattern does not match
    it, or what the steps behind the pattern raise on its groups. *)
Lemma evaluate_comparison_by_raises
  (compare : str -> str -> str -> outcome bool) (c : str) (e : exn) :
  evaluate_comparison_by compare c = Raise e ->
  (re_match (strip c) = None /\ e = invalid_format c) \/
  exists field operator value,
    re_match (strip c) = Some (field, operator, value) /\
    In operator four_operators /\ compare field operator value = Raise e.
Proof.
  unfold evaluate_comparison_by.
  destruct (re_match (strip c)) as [[[field operator] value]|] eqn:E.
  - intros H. right. exists field, operator, value.
    split; [reflexivity|]. split; [|exact H].
    pose proof (re_match_operator (strip c)) as Hx. unfold re_match in E.
    unfold first_of in Hx. now rewrite E in Hx.
  - intros [= <-]. left. split; reflexivity.
Qed.

(** Behind the pattern the literal never raises and the operator raises
    nothing but a [TypeError]: any other exception is one of the lookup. *)
Lemma compare_step_raises (o : pyobj) (field operator value : str) (e : exn) :
  In operator four_operators ->
  compare_step o field operator value = Raise e ->
  e = TypeError \/ pydash_get o field = Raise e.
Proof.
  intros Hop. unfold compare_step.
  destruct (evaluated_value_of value) as [ev| |] eqn:Ev; cbn [obind];
    [| now apply evaluated_value_of_no_raise in Ev | discriminate].
  destruct (pydash_get o field) as [fv|e0|]; cbn [obind];
    [| intros [= <-]; now right | discriminate].
  intros H. left. exact (apply_operator_raises _ _ _ _ Hop H).
Qed.

Lemma invalid_format_inj (c c' : str) :
  invalid_format c = invalid_format c' -> c = c'.
Proof. unfold invalid_format. intros [= H]. exact H. Qed.

Section Sourced.

Variable evaluate : str -> outcome bool.

Lemma sourced_tret (A : Type) (a : A) : sourced evaluate (tret a).
Proof. intros e H. discriminate H. Qed.

Lemma sourced_call (expr : str) : sourced evaluate (call evaluate expr).
Proof. intros e H. exists expr. split; [now left | exact H]. Qed.

Lemma sourced_tbind (A B : Type) (m : traced A) (k : A -> traced B) :
  sourced evaluate m -> (forall a, sourced evaluate (k a)) ->
  sourced evaluate (tbind m k).
Proof.
  destruct m as [log out]. intros Hm Hk e. unfold tbind. cbn [fst snd].
  destruct out as [a|e0|]; cbn [fst snd].
  - intros H. destruct (Hk a e H) as (c & Hc & Ec).
    exists c. split; [apply in_or_app; now right | exact Ec].
  - intros [= <-]. apply (Hm e0). reflexivity.
  - discriminate.
Qed.

Lemma sourced_call_part (ps : list str) (j : nat) :
  j < length ps -> sourced evaluate (call_part evaluate ps j).
Proof.
  intros Hj. unfold call_part.
  destruct (nth_error ps j) eqn:E; [apply sourced_call|].
  apply nth_error_None in E. lia.
Qed.

Lemma sourced_for_loop (ps ops : list str) :
  forall todo i result,
    i + length todo < length ps ->
    sourced evaluate (for_loop evaluate ps ops i todo result).
Proof.
  induction todo as [|op todo IH]; intros i result Hi; cbn [for_loop].
  - apply sourced_tret.
  - cbn [length] in Hi. apply sourced_tbind.
    + unfold loop_body.
      destruct (str_eqb op (s "AND")); [|destruct (str_eqb op (s "OR"))].
      * apply sourced_tbind.
        -- destruct result; [apply sourced_call_part; lia | apply sourced_tret].
        -- intros r. destruct (negb r); apply sourced_tret.
      * apply sourced_tbind.
        -- destruct result; [apply sourced_tret | apply sourced_call_part; lia].
        -- intros r. destruct (r && _); apply sourced_tret.
      * apply sourced_tret.
    + intros [r f]. destruct f; cbn [fst snd];
        [apply IH; lia | apply IH; lia | apply sourced_tret].
Qed.

End Sourced.

Lemma split_lengths (a : str) :
  length (fst (split_on_logical_ops a)) = S (length (snd (split_on_logical_ops a))).
Proof.
  unfold split_on_logical_ops. cbn [fst snd].
  destruct (split_loop_balanced a a 0 split_start split_start_balanced) as [H _].
  rewrite length_app. cbn [length]. lia.
Qed.

Lemma sourced_test_by (evaluate : str -> outcome bool) (self : Expr) :
  sourced evaluate (test_by evaluate self).
Proof.
  unfold test_by.
  destruct (negb _ && negb _); [apply sourced_call|].
  pose proof (split_lengths (args self)) as Hlen.
  destruct (split_on_logical_ops (args self)) as [ps ops]. cbn [fst snd] in Hlen.
  destruct ps as [|first ps']; [discriminate Hlen|].
  apply sourced_tbind; [apply sourced_call|].
  intros r. apply sourced_for_loop. rewrite Hlen. cbn. lia.
Qed.

(** The model of [test] is [test_by] at the steps of the code. *)
Lemma test_by_steps (self : Expr) (o : pyobj) :
  Expr_test_traced self o =
  test_by (evaluate_comparison_by (compare_step o)) self.
Proof. reflexivity. Qed.

(** X6. [test] raises nothing of its own, whatever the steps behind the
    pattern do: an exception of [test] is the format error of a clause it
    has reached and that the pattern does not match, or what those steps
    raised on a reached clause that the pattern matches, with one of the
    four operators the pattern ever gives. The indices into the parts never
    leave the list. Of the steps of the code, the literal never raises and
    the operator raises nothing but a [TypeError], so that the branch of the
    unsupported operator is never taken: any other exception is one of the
    lookup. *)
Theorem test_raises_only
  (compare : str -> str -> str -> outcome bool) (a : str) (e : exn) :
  snd (test_by (evaluate_comparison_by compare) (Expr_init a)) = Raise e ->
  (exists c,
     In c (fst (test_by (evaluate_comparison_by compare) (Expr_init a))) /\
     ((re_match (strip c) = None /\ e = invalid_format c) \/
      exists field operator value,
        re_match (strip c) = Some (field, operator, value) /\
        In operator four_operators /\
        compare field operator value = Raise e)) /\
  (forall o field operator value e',
     In operator four_operators ->
     compare_step o field operator value = Raise e' ->
     e' = TypeError \/ pydash_get o field = Raise e') /\
  (forall o,
     Expr_test_traced (Expr_init a) o =
     test_by (evaluate_comparison_by (compare_step o)) (Expr_init a)).
Proof.
  intros H. split; [|split; [apply compare_step_raises | reflexivity]].
  destruct (sourced_test_by _ (Expr_init a) e H) as (c & Hc & Ec).
  exists c. split; [exact Hc|]. now apply evaluate_comparison_by_raises.
Qed.

(** The [TypeError] of an absent field: it is the one of the operator. *)
Lemma test_raises_only_witness :
  exists c,
    In c (reached (Expr_init (s "$.missing > 1")) (VDict [])) /\
    ((re_match (strip c) = None /\ TypeError = invalid_format c) \/
     exists field operator value,
       re_match (strip c) = Some (field, operator, value) /\
       In operator four_operators /\
       compare_step (VDict []) field operator value = Raise TypeError).
Proof.
  exact (proj1 (test_raises_only (compare_step (VDict [])) (s "$.missing > 1")
                  TypeError eq_refl)).
Defined.

(** ** Malformed clauses *)

Section Within.

Variable evaluate : str -> outcome bool.
Variable ps : list str.

Lemma within_tret (A : Type) (a : A) : within ps (tret a).
Proof. intros c []. Qed.

Lemma within_traise (A : Type) (e : exn) : within ps (@traise A e).
Proof. intros c []. Qed.

Lemma within_call (expr : str) : In expr ps -> within ps (call evaluate expr).
Proof. intros H c [<-|[]]. exact H. Qed.

Lemma within_tbind (A B : Type) (m : traced A) (k : A -> traced B) :
  within ps m -> (forall a, within ps (k a)) -> within ps (tbind m k).
Proof.
  destruct m as [log out]. unfold within, tbind. cbn [fst snd]. intros Hm Hk.
  destruct out as [a| |]; cbn [fst]; [|exact Hm..].
  apply incl_app; [exact Hm | apply Hk].
Qed.

Lemma within_call_part (j : nat) : within ps (call_part evaluate ps j).
Proof.
  unfold call_part. destruct (nth_error ps j) as [expr|] eqn:E;
    [|apply within_traise].
  apply within_call. exact (nth_error_In _ _ E).
Qed.

Lemma within_for_loop (ops : list str) :
  forall todo i result, within ps (for_loop evaluate ps ops i todo result).
Proof.
  induction todo as [|op todo IH]; intros i result; cbn [for_loop].
  - apply within_tret.
  - apply within_tbind.
    + unfold loop_body.
      destruct (str_eqb op (s "AND")); [|destruct (str_eqb op (s "OR"))].
      * apply within_tbind.
        -- destruct result; [apply within_call_part | apply within_tret].
        -- intros r. destruct (negb r); apply within_tret.
      * apply within_tbind.
        -- destruct result; [apply within_tret | apply within_call_part].
        -- intros r. destruct (r && _); apply within_tret.
      * apply within_tret.
    + intros [r f]. destruct f; cbn [fst snd];
        [apply IH | apply IH | apply within_tret].
Qed.

End Within.

Section Settled.

Variable evaluate : str -> outcome bool.
Hypothesis evaluate_settled : forall c, evaluate c <> Beyond.

Lemma settled_tret (A : Type) (a : A) : settled (tret a).
Proof. discriminate. Qed.

Lemma settled_traise (A : Type) (e : exn) : settled (@traise A e).
Proof. discriminate. Qed.

Lemma settled_call (expr : str) : settled (call evaluate expr).
Proof. apply evaluate_settled. Qed.

Lemma settled_tbind (A B : Type) (m : traced A) (k : A -> traced B) :
  settled m -> (forall a, settled (k a)) -> settled (tbind m k).
Proof.
  destruct m as [log out]. unfold settled, tbind. cbn [fst snd]. intros Hm Hk.
  destruct out as [a|e|]; cbn [snd]; [apply Hk | discriminate | now destruct Hm].
Qed.

Lemma settled_call_part (ps : list str) (j : nat) :
  settled (call_part evaluate ps j).
Proof.
  unfold call_part. destruct (nth_error ps j);
    [apply settled_call | apply settled_traise].
Qed.

Lemma settled_for_loop (ps ops : list str) :
  forall todo i result, settled (for_loop evaluate ps ops i todo result).
Proof.
  induction todo as [|op todo IH]; intros i result; cbn [for_loop].
  - apply settled_tret.
  - apply settled_tbind.
    + unfold loop_body.
      destruct (str_eqb op (s "AND")); [|destruct (str_eqb op (s "OR"))].
      * apply settled_tbind.
        -- destruct result; [apply settled_call_part | apply settled_tret].
        -- intros r. destruct (negb r); apply settled_tret.
      * apply settled_tbind.
        -- destruct result; [apply settled_tret | apply settled_call_part].
        -- intros r. destruct (r && _); apply settled_tret.
      * apply settled_tret.
    + intros [r f]. destruct f; cbn [fst snd];
        [apply IH | apply IH | apply settled_tret].
Qed.

Lemma settled_test_by (self : Expr) : settled (test_by evaluate self).
Proof.
  unfold test_by.
  destruct (negb _ && negb _); [apply settled_call|].
  destruct (split_on_logical_ops (args self)) as [ps ops].
  destruct ps as [|first ps']; [apply settled_traise|].
  apply settled_tbind; [apply settled_call|].
  intros r. apply settled_for_loop.
Qed.

End Settled.

(** The first clause of the split is evaluated on every run. *)
Lemma test_by_first (evaluate : str -> outcome bool) (a : str) :
  exists others,
    fst (test_by evaluate (Expr_init a)) =
    hd [] (fst (split_on_logical_ops a)) :: others.
Proof.
  unfold test_by. cbn [args Expr_init].
  destruct (negb (contains (s " AND ") (upper a))) eqn:HA; cbn [andb].
  - destruct (negb (contains (s " OR ") (upper a))) eqn:HO.
    + apply negb_true_iff in HA, HO.
      rewrite (split_without_keyword _ HA HO). now exists [].
    + pose proof (split_lengths a) as Hlen.
      destruct (split_on_logical_ops a) as [ps ops]. cbn [fst snd] in *.
      destruct ps as [|first ps']; [discriminate Hlen|].
      unfold tbind, call. cbn [fst snd hd].
      destruct (evaluate first); cbn [fst app]; eexists; reflexivity.
  - pose proof (split_lengths a) as Hlen.
    destruct (split_on_logical_ops a) as [ps ops]. cbn [fst snd] in *.
    destruct ps as [|first ps']; [discriminate Hlen|].
    unfold tbind, call. cbn [fst snd hd].
    destruct (evaluate first); cbn [fst app]; eexists; reflexivity.
Qed.

(** A run evaluates clauses of the split and nothing else. *)
Lemma within_test_by (evaluate : str -> outcome bool) (a : str) :
  within (fst (split_on_logical_ops a)) (test_by evaluate (Expr_init a)).
Proof.
  unfold test_by. cbn [args Expr_init].
  destruct (negb (contains (s " AND ") (upper a))) eqn:HA; cbn [andb];
    [destruct (negb (contains (s " OR ") (upper a))) eqn:HO|].
  1: { apply negb_true_iff in HA, HO.
       rewrite (split_without_keyword _ HA HO). apply within_call. now left. }
  all: destruct (split_on_logical_ops a) as [ps ops]; cbn [fst];
    destruct ps as [|first ps']; [apply within_traise|];
    apply within_tbind; [apply within_call; now left|];
    intros r; apply within_for_loop.
Qed.

Lemma span_spec (p : ascii -> bool) (x : str) :
  x = fst (span p x) ++ snd (span p x) /\
  forallb p (fst (span p x)) = true /\ stops p (snd (span p x)).
Proof.
  induction x as [|c x IH]; cbn [span]; [repeat split|].
  destruct (p c) eqn:E; cbn [fst snd app forallb stops].
  - destruct IH as (H1 & H2 & H3). rewrite E, H2. repeat split; [|exact H3].
    now rewrite <- H1.
  - repeat split. exact E.
Qed.

Lemma no_space_is_no_newline (c : ascii) :
  is_space c = false -> is_not_newline c = true.
Proof.
  destruct c as [[] [] [] [] [] [] [] []]; vm_compute; intros H;
    try discriminate H; reflexivity.
Qed.

Lemma spec_path_field (path : str) :
  spec_path path = true -> nonempty path = true.
Proof. destruct path; [discriminate | reflexivity]. Qed.

(** What the pattern reads behind the path of a clause of the grammar: the
    operator itself, or the first character of [>=] and [<=] with the
    equals sign left to the value. *)
Lemma grammar_operator (tail operator : str) :
  In operator comparison_operators ->
  spec_operator_and_value tail operator = true ->
  exists operator' after value,
    tail = operator' ++ after ++ value /\ In operator' four_operators /\
    is_blank after = true /\ value <> [] /\ stops is_space value.
Proof.
  intros Hop H. unfold spec_operator_and_value in H.
  destruct (strip_prefix operator tail) as [behind|] eqn:E; [|discriminate H].
  apply strip_prefix_app in E. subst tail.
  destruct (span_spec is_space behind) as (Hb & Hblank & Hstop).
  destruct (span is_space behind) as [space value]. cbn [fst snd] in *.
  apply andb_prop in H as [Hs Hv]. subst behind.
  assert (Hne : value <> []) by (destruct value; [discriminate Hv | discriminate]).
  destruct Hop as [<-|[<-|[<-|[<-|[<-|[<-|[]]]]]]].
  - exists (s "=="), space, value. repeat split; try assumption. cbn; tauto.
  - exists (s "!="), space, value. repeat split; try assumption. cbn; tauto.
  - exists (s ">"), space, value. repeat split; try assumption. cbn; tauto.
  - exists (s "<"), space, value. repeat split; try assumption. cbn; tauto.
  - exists (s ">"), [], ("="%char :: space ++ value).
    repeat split; try discriminate. cbn; tauto.
  - exists (s "<"), [], ("="%char :: space ++ value).
    repeat split; try discriminate. cbn; tauto.
Qed.

(** The pattern matches every clause of the grammar. *)
Lemma grammar_is_matched (c : str) :
  spec_clause c = true -> re_match (strip c) <> None.
Proof.
  unfold spec_clause. intros H.
  destruct (strip_prefix (s "$.") (strip c)) as [rest|] eqn:E; [|discriminate H].
  apply strip_prefix_app in E. rewrite E.
  destruct (span_spec is_word_or_dot rest) as (Hr & Hpath & _).
  destruct (span is_word_or_dot rest) as [path behind]. cbn [fst snd] in *.
  destruct (span_spec is_space behind) as (Hb & Hblank & _).
  destruct (span is_space behind) as [space tail]. cbn [fst snd] in *.
  apply andb_prop in H as [H Hex]. apply andb_prop in H as [Hp Hs].
  apply existsb_exists in Hex as (operator & Hop & Hv).
  destruct (grammar_operator tail operator Hop Hv)
    as (operator' & after & value & -> & Hop' & Ha & Hne & Hstop).
  destruct (span_spec is_not_newline value) as (Hval & Hline & Hrest).
  destruct (span is_not_newline value) as [line rest'] eqn:Es. cbn [fst snd] in *.
  assert (Hl : line <> [] /\ stops is_space line).
  { destruct value as [|d value]; [congruence|]. cbn [stops] in Hstop.
    cbn [span] in Es. rewrite (no_space_is_no_newline d Hstop) in Es.
    injection Es as <- _. split; [discriminate | exact Hstop]. }
  destruct Hl as [Hl Hl'].
  subst rest behind. rewrite Hval.
  rewrite (re_match_written path space operator' after line rest');
    try assumption; [discriminate|].
  unfold is_field. now rewrite (spec_path_field path Hp).
Qed.

(** C9, as stated, fails: the pattern makes the white space around the
    operator optional and takes any run of word characters and dots as the
    path. [$.count==10] is no clause of the grammar of the specification;
    [test] evaluates it and returns. The pattern also matches [$.count. == 10],
    whose path ends in an empty segment. *)
Lemma pattern_accepts_more_than_the_grammar :
  spec_clause (s "$.count == 10") = true /\
  spec_clause (s "$.count==10") = false /\
  reached (Expr_init (s "$.count==10")) test_object = [s "$.count==10"] /\
  Expr_test (Expr_init (s "$.count==10")) test_object = Ret true /\
  spec_clause (s "$.count. == 10") = false /\
  re_match (strip (s "$.count. == 10")) = Some (s "count.", s "==", s "10") /\
  ~ (forall a o c,
       In c (reached (Expr_init a) o) -> spec_clause c = false ->
       Expr_test (Expr_init a) o = Raise (invalid_format c)).
Proof.
  repeat split; try reflexivity.
  intros H.
  specialize (H (s "$.count==10") test_object (s "$.count==10")
                (or_introl eq_refl) eq_refl).
  vm_compute in H. discriminate H.
Qed.

(** C9, amended. Building an [Expr] only stores the text. Whatever the
    steps behind the pattern do, [evaluate_comparison] raises the format
    error on a clause that the pattern does not match and hands every other
    clause, those of the grammar of the specification among them, to those
    steps. A run of [test] evaluates the first clause of the split, and
    clauses of the split only; it raises exactly what a clause it has
    reached raises, hence the format error of every malformed clause it
    reaches, and, when the steps behind the pattern raise no format error
    themselves, the format error of a clause exactly when it reaches that
    clause and the pattern does not match it. A run returns or raises when
    those steps do. A malformed clause that the short circuit skips raises
    nothing: [$.count < 5 AND nonsense] is false of a count of 10, where
    [$.count > 9.5 AND nonsense] raises the format error. *)
Theorem malformed_clause_raises_when_reached
  (compare : str -> str -> str -> outcome bool) (a : str) :
  let evaluate := evaluate_comparison_by compare in
  let run := test_by evaluate (Expr_init a) in
  args (Expr_init a) = a /\
  (forall c, re_match (strip c) = None -> evaluate c = Raise (invalid_format c)) /\
  (forall c field operator value,
     re_match (strip c) = Some (field, operator, value) ->
     evaluate c = compare field operator value) /\
  (forall c, spec_clause c = true -> re_match (strip c) <> None) /\
  (exists others, fst run = hd [] (fst (split_on_logical_ops a)) :: others) /\
  incl (fst run) (fst (split_on_logical_ops a)) /\
  (forall e, snd run = Raise e <-> exists c, In c (fst run) /\ evaluate c = Raise e) /\
  (forall c,
     In c (fst run) -> re_match (strip c) = None ->
     snd run = Raise (invalid_format c)) /\
  ((forall field operator value c,
      compare field operator value <> Raise (invalid_format c)) ->
   forall c,
     snd run = Raise (invalid_format c) <->
     In c (fst run) /\ re_match (strip c) = None) /\
  ((forall field operator value, compare field operator value <> Beyond) ->
   snd run <> Beyond) /\
  (forall o,
     Expr_test_traced (Expr_init a) o =
     test_by (evaluate_comparison_by (compare_step o)) (Expr_init a)) /\
  Expr_test_traced (Expr_init (s "$.count < 5 AND nonsense")) test_object =
    ([s "$.count < 5"], Ret false) /\
  Expr_test_traced (Expr_init (s "$.count > 9.5 AND nonsense")) test_object =
    ([s "$.count > 9.5"; s "nonsense"], Raise (invalid_format (s "nonsense"))).
Proof.
  intros evaluate run.
  assert (Hnone : forall c, re_match (strip c) = None ->
                            evaluate c = Raise (invalid_format c)).
  { intros c H. unfold evaluate, evaluate_comparison_by. now rewrite H. }
  assert (Hraise : forall e, snd run = Raise e <->
                             exists c, In c (fst run) /\ evaluate c = Raise e).
  { intros e. split.
    - apply (sourced_test_by evaluate (Expr_init a)).
    - intros (c & Hc & Ec).
      pose proof (proj1 (faithful_test_by evaluate (Expr_init a)) c Hc) as H.
      now rewrite Ec in H. }
  assert (Hreached : forall c, In c (fst run) -> re_match (strip c) = None ->
                               snd run = Raise (invalid_format c)).
  { intros c Hc Hn. apply Hraise. exists c. split; [exact Hc | now apply Hnone]. }
  split; [reflexivity|]. split; [exact Hnone|]. split.
  { intros c field operator value H. unfold evaluate, evaluate_comparison_by.
    now rewrite H. }
  split; [exact grammar_is_matched|].
  split; [apply test_by_first|]. split; [apply within_test_by|].
  split; [exact Hraise|]. split; [exact Hreached|]. split.
  { intros Hcompare c. split.
    - intros H. apply Hraise in H as (c' & Hc' & Ec').
      destruct (evaluate_comparison_by_raises _ _ _ Ec')
        as [[Hn E]|(f & op & v & _ & _ & E)].
      + apply invalid_format_inj in E. subst c'. split; assumption.
      + now apply Hcompare in E.
    - intros [Hc Hn]. now apply Hreached. }
  split.
  { intros Hcompare. apply settled_test_by. intros c.
    unfold evaluate, evaluate_comparison_by.
    destruct (re_match (strip c)) as [[[f op] v]|];
      [apply Hcompare | discriminate]. }
  split; [reflexivity|]. split; vm_compute; reflexivity.
Qed.

(** The run of the code on [$.count > 5 AND nonsense]: the second clause is
    reached and its format error is raised. *)
Lemma malformed_clause_raises_when_reached_witness :
  Expr_test (Expr_init (s "$.count > 5 AND nonsense")) test_object =
  Raise (invalid_format (s "nonsense")).
Proof.
  destruct (malformed_clause_raises_when_reached (compare_step test_object)
              (s "$.count > 5 AND nonsense"))
    as (_ & _ & _ & _ & _ & _ & _ & H & _).
  unfold Expr_test. rewrite test_by_steps. apply (H (s "nonsense")).
  - vm_compute. right. left. reflexivity.
  - vm_compute. reflexivity.
Defined.

(** ** Two clauses and a connector *)

Lemma split_step_at (x pre rest : str) (c : ascii) (st : split_state) :
  x = pre ++ c :: rest -> in_quotes st = flag pre ->
  split_step x (length pre) c st =
  if cuts_at x (length pre) then
    if str_eqb (upper (slice x (length pre) (length pre + 5))) (s " AND ")
    then record x (length pre) (s "AND") 5 (flag (pre ++ [c])) st
    else record x (length pre) (s "OR") 4 (flag (pre ++ [c])) st
  else idle (flag (pre ++ [c])) st.
Proof. intros -> H. now rewrite split_step_cases. Qed.

(** The splitter on a text that it cuts once, at the keyword [K] behind
    [A]. *)
Lemma split_single_cut (x A K B name : str) (c : ascii) (K' : str) :
  x = A ++ K ++ B ->
  K = c :: K' ->
  (forall i, i < length x -> i <> length A -> cuts_at x i = false) ->
  cuts_at x (length A) = true ->
  (if str_eqb (upper (slice x (length A) (length A + 5))) (s " AND ")
   then name = s "AND" /\ length K = 5
   else name = s "OR" /\ length K = 4) ->
  split_on_logical_ops x = ([A; B], [name]).
Proof.
  intros Hx HK Hno Hcut Hname. unfold split_on_logical_ops.
  assert (Hlen : length x = length A + S (length (K' ++ B)))
    by (rewrite Hx, HK; cbn [app]; rewrite length_app; reflexivity).
  (* the turns before the keyword *)
  pose proof (split_loop_idle_run x A [] (K ++ B) split_start Hx eq_refl) as E1.
  cbn [length app Nat.add] in E1. rewrite <- Hx in E1.
  rewrite E1 by (intros i Hi; apply Hno; lia). clear E1.
  (* the turn at the keyword *)
  rewrite HK. cbn [app split_loop].
  rewrite (split_step_at x A (K' ++ B) c);
    [| rewrite Hx, HK; reflexivity | reflexivity].
  rewrite Hcut.
  set (st := if str_eqb _ _ then _ else _).
  assert (Hst : in_quotes st = flag (A ++ [c]))
    by (unfold st; destruct (str_eqb _ _); reflexivity).
  (* the turns behind it *)
  pose proof (split_loop_idle_run x (K' ++ B) (A ++ [c]) [] st) as E2.
  rewrite app_nil_r, length_app, Nat.add_1_r in E2. cbn [length] in E2.
  rewrite E2;
    [| rewrite <- app_assoc, Hx, HK; reflexivity | exact Hst
     | intros i Hi; apply Hno; lia].
  cbn [split_loop idle parts operators last_pos].
  unfold st, slice_from.
  destruct (str_eqb _ _); destruct Hname as [-> HlenK];
    cbn [record idle parts operators last_pos split_start app];
    (f_equal; f_equal;
     [ unfold slice; rewrite Nat.sub_0_r; cbn [skipn]; rewrite Hx;
       now rewrite firstn_app, firstn_all, Nat.sub_diag, firstn_0, app_nil_r
     | f_equal; rewrite Hx, <- HlenK, <- length_app, app_assoc;
       now rewrite skipn_app, skipn_all, Nat.sub_diag ]).
Qed.

Lemma only_keyword_at_spec (k : nat) (x : str) (i : nat) :
  only_keyword_at k x = true -> i < length x -> i <> k ->
  keyword_at x i = false.
Proof.
  unfold only_keyword_at, positions. intros H Hi Hk.
  assert (Hin : In i (seq 0 (length x))) by (apply in_seq; lia).
  pose proof (proj1 (forallb_forall _ _) H i Hin) as Hi'. cbn beta in Hi'.
  destruct (keyword_at x i); [|reflexivity].
  cbn in Hi'. apply Nat.eqb_eq in Hi'. contradiction.
Qed.

Lemma split_joined (A name B : str) :
  In name [s "AND"; s "OR"] ->
  flag A = false -> B <> [] ->
  only_keyword_at (length A) (joined A name B) = true ->
  split_on_logical_ops (joined A name B) = ([A; B], [name]).
Proof.
  intros Hname HA HB Honly.
  assert (Hno : forall i, i < length (joined A name B) -> i <> length A ->
                          cuts_at (joined A name B) i = false).
  { intros i Hi Hk. unfold cuts_at.
    now rewrite (only_keyword_at_spec _ _ _ Honly Hi Hk), andb_false_r. }
  assert (Hflag : flag (firstn (S (length A)) (joined A name B)) = false).
  { unfold joined. rewrite firstn_snoc, flag_snoc. exact HA. }
  destruct B as [|b B]; [congruence|].
  destruct Hname as [<-|[<-|[]]].
  - apply (split_single_cut (joined A (s "AND") (b :: B))
             A (s " AND ") (b :: B) (s "AND") " "%char (s "AND ")
             eq_refl eq_refl Hno).
    + unfold cuts_at, keyword_at. rewrite Hflag. unfold joined.
      rewrite !slice_here. apply andb_true_intro. split; [|reflexivity].
      apply Nat.leb_le. rewrite length_app. cbn. lia.
    + unfold joined. rewrite slice_here. vm_compute. split; reflexivity.
  - apply (split_single_cut (joined A (s "OR") (b :: B))
             A (s " OR ") (b :: B) (s "OR") " "%char (s "OR ")
             eq_refl eq_refl Hno).
    + unfold cuts_at, keyword_at. rewrite Hflag. unfold joined.
      rewrite !slice_here. apply andb_true_intro. split.
      * apply Nat.leb_le. rewrite length_app. cbn. lia.
      * apply orb_true_intro. right. reflexivity.
    + unfold joined. rewrite slice_here.
      replace (str_eqb _ _) with false; [split; reflexivity|].
      symmetry. cbn [s list_ascii_of_string app firstn upper map str_eqb].
      change (upper_char " ") with " "%char.
      change (upper_char "O") with "O"%char.
      now rewrite Ascii.eqb_refl.
Qed.

(** X7. Joining and splitting: two clauses written with [AND] or [OR]
    between them come back as they were, with the connector, when the first
    clause closes the quotes it opens, the second is not empty and no
    keyword starts anywhere else in the text. *)
Theorem split_of_joined (A name B : str) :
  In name [s "AND"; s "OR"] ->
  flag A = false -> B <> [] ->
  only_keyword_at (length A) (joined A name B) = true ->
  split_on_logical_ops (joined A name B) = ([A; B], [name]).
Proof. exact (split_joined A name B). Qed.

Lemma split_of_joined_witness :
  split_on_logical_ops
    (joined (s "$.foo == " ++ quoted "a") (s "OR") (s "$.count > 5"))
  = ([s "$.foo == " ++ quoted "a"; s "$.count > 5"], [s "OR"]).
Proof.
  apply (split_of_joined (s "$.foo == " ++ quoted "a") (s "OR") (s "$.count > 5"));
    [right; now left | reflexivity | discriminate | reflexivity].
Defined.

(** ** What a chain of one connector means *)

Lemma tbind_tret_left (A B : Type) (a : A) (k : A -> traced B) :
  tbind (tret a) k = k a.
Proof. unfold tbind, tret. cbn. now destruct (k a). Qed.

Lemma tbind_assoc (A B C : Type) (m : traced A) (k : A -> traced B)
  (h : B -> traced C) :
  tbind (tbind m k) h = tbind m (fun a => tbind (k a) h).
Proof.
  destruct m as [log [a|e|]]; unfold tbind; cbn [fst snd]; try reflexivity.
  destruct (k a) as [log' [b|e|]]; cbn [fst snd]; try reflexivity.
  now rewrite app_assoc.
Qed.

Lemma tbind_ext (A B : Type) (m : traced A) (k k' : A -> traced B) :
  (forall a, k a = k' a) -> tbind m k = tbind m k'.
Proof.
  intros H. unfold tbind. destruct (snd m); try reflexivity. now rewrite H.
Qed.

Lemma tbind_tret_right (A : Type) (m : traced A) : tbind m tret = m.
Proof.
  destruct m as [log [a|e|]]; unfold tbind, tret; cbn; try reflexivity.
  now rewrite app_nil_r.
Qed.

Lemma call_part_behind (evaluate : str -> outcome bool) (pre : list str)
  (p : str) (others : list str) (i : nat) :
  length pre = S i ->
  call_part evaluate (pre ++ p :: others) (i + 1) = call evaluate p.
Proof.
  intros H. unfold call_part.
  replace (i + 1) with (length pre + 0) by lia.
  now rewrite nth_error_app2, Nat.add_comm, Nat.add_sub by lia.
Qed.

Lemma for_loop_and_chain (evaluate : str -> outcome bool) (ops : list str) :
  forall others pre i result,
    length pre = S i ->
    for_loop evaluate (pre ++ others) ops i
      (repeat (s "AND") (length others)) result
    = all_hold evaluate others result.
Proof.
  induction others as [|p others IH]; intros pre i result Hpre;
    cbn [length repeat for_loop all_hold]; [reflexivity|].
  unfold loop_body. change (str_eqb (s "AND") (s "AND")) with true. cbn iota.
  destruct result.
  - rewrite call_part_behind by exact Hpre. rewrite !tbind_assoc.
    apply tbind_ext. intros [|]; cbn [negb]; rewrite tbind_tret_left; cbn [fst snd].
    + replace (pre ++ p :: others) with ((pre ++ [p]) ++ others)
        by (now rewrite <- app_assoc).
      apply IH. rewrite length_app. cbn. lia.
    + now destruct others.
  - rewrite !tbind_tret_left. reflexivity.
Qed.

Lemma for_loop_or_true (evaluate : str -> outcome bool) (ps ops : list str) :
  forall n i,
    for_loop evaluate ps ops i (repeat (s "OR") n) true = tret true.
Proof.
  induction n as [|n IH]; intros i; cbn [repeat for_loop]; [reflexivity|].
  unfold loop_body. change (str_eqb (s "OR") (s "AND")) with false.
  change (str_eqb (s "OR") (s "OR")) with true. cbn iota.
  rewrite !tbind_tret_left. cbn [andb].
  destruct (next_is_or ops i); rewrite tbind_tret_left; cbn [fst snd]; apply IH.
Qed.

Lemma for_loop_or_chain (evaluate : str -> outcome bool) (ops : list str) :
  forall others pre i result,
    length pre = S i ->
    for_loop evaluate (pre ++ others) ops i
      (repeat (s "OR") (length others)) result
    = any_holds evaluate others result.
Proof.
  induction others as [|p others IH]; intros pre i result Hpre;
    cbn [length repeat for_loop any_holds]; [reflexivity|].
  destruct result.
  - change (s "OR" :: repeat (s "OR") (length others))
      with (repeat (s "OR") (S (length others))).
    pose proof (for_loop_or_true evaluate (pre ++ p :: others) ops
                  (S (length others)) i) as H.
    cbn [repeat for_loop] in H. exact H.
  - unfold loop_body. change (str_eqb (s "OR") (s "AND")) with false.
    change (str_eqb (s "OR") (s "OR")) with true. cbn iota.
    rewrite call_part_behind by exact Hpre. rewrite !tbind_assoc.
    apply tbind_ext. intros r.
    destruct (r && next_is_or ops i); rewrite tbind_tret_left; cbn [fst snd];
      (replace (pre ++ p :: others) with ((pre ++ [p]) ++ others)
         by (now rewrite <- app_assoc));
      apply IH; rewrite length_app; cbn; lia.
Qed.

(** The fold behind the first clause, whichever branch [test] takes. *)
Lemma test_by_split (a first : str) (others ops : list str) (o : pyobj) :
  split_on_logical_ops a = (first :: others, ops) ->
  Expr_test_traced (Expr_init a) o =
  tbind (call (evaluate_comparison o) first)
    (for_loop (evaluate_comparison o) (first :: others) ops 0 ops).
Proof.
  intros H. unfold Expr_test_traced, test_with. cbn [args Expr_init].
  destruct (negb (contains (s " AND ") (upper a))) eqn:HA;
    [destruct (negb (contains (s " OR ") (upper a))) eqn:HO|];
    cbn [andb]; rewrite ?H; try reflexivity.
  apply negb_true_iff in HA, HO.
  rewrite (split_without_keyword a HA HO) in H. injection H as <- <- <-.
  cbn [for_loop]. now rewrite tbind_tret_right.
Qed.

(** X8. A chain of [AND]s is the conjunction of its clauses, from left to
    right and with the short circuit: the clauses are evaluated as long as
    they hold, and no clause behind the first that fails. *)
Theorem and_chain_is_conjunction (a first : str) (others : list str) (o : pyobj) :
  split_on_logical_ops a = (first :: others, repeat (s "AND") (length others)) ->
  Expr_test_traced (Expr_init a) o =
  tbind (call (evaluate_comparison o) first)
    (all_hold (evaluate_comparison o) others).
Proof.
  intros H. rewrite (test_by_split a first others _ o H).
  apply tbind_ext. intros r.
  apply (for_loop_and_chain (evaluate_comparison o) _ others [first] 0 r).
  reflexivity.
Qed.

Lemma and_chain_is_conjunction_witness :
  Expr_test_traced
    (Expr_init (s "$.count > 5 AND $.count > 50 AND $.count > 1")) test_object
  = ([s "$.count > 5"; s "$.count > 50"], Ret false).
Proof.
  exact (and_chain_is_conjunction
           (s "$.count > 5 AND $.count > 50 AND $.count > 1")
           (s "$.count > 5") [s "$.count > 50"; s "$.count > 1"] test_object
           eq_refl).
Defined.

(** X9. A chain of [OR]s is the disjunction of its clauses, from left to
    right and with the short circuit: the clauses are evaluated until one
    holds, and no clause behind it. *)
Theorem or_chain_is_disjunction (a first : str) (others : list str) (o : pyobj) :
  split_on_logical_ops a = (first :: others, repeat (s "OR") (length others)) ->
  Expr_test_traced (Expr_init a) o =
  tbind (call (evaluate_comparison o) first)
    (any_holds (evaluate_comparison o) others).
Proof.
  intros H. rewrite (test_by_split a first others _ o H).
  apply tbind_ext. intros r.
  apply (for_loop_or_chain (evaluate_comparison o) _ others [first] 0 r).
  reflexivity.
Qed.

Lemma or_chain_is_disjunction_witness :
  Expr_test_traced
    (Expr_init (s "$.count > 50 OR $.count > 5 OR nonsense")) test_object
  = ([s "$.count > 50"; s "$.count > 5"], Ret true).
Proof.
  exact (or_chain_is_disjunction
           (s "$.count > 50 OR $.count > 5 OR nonsense")
           (s "$.count > 50") [s "$.count > 5"; s "nonsense"] test_object
           eq_refl).
Defined.

(** X10. Two clauses and a connector, end to end: [test] on [A AND B] is
    [A and B], and on [A OR B] it is [A or B], each with the short circuit
    of Python, under the conditions of the splitter's round trip. *)
Theorem test_of_joined (A name B : str) (o : pyobj) :
  In name [s "AND"; s "OR"] ->
  flag A = false -> B <> [] ->
  only_keyword_at (length A) (joined A name B) = true ->
  Expr_test_traced (Expr_init (joined A name B)) o =
  if str_eqb name (s "AND")
  then and_then (evaluate_comparison o) A B
  else or_else (evaluate_comparison o) A B.
Proof.
  intros Hname HA HB Honly.
  rewrite (test_by_split _ A [B] [name] o (split_joined A name B Hname HA HB Honly)).
  destruct Hname as [<-|[<-|[]]].
  - change (str_eqb (s "AND") (s "AND")) with true. cbn iota.
    unfold and_then. apply tbind_ext. intros r.
    rewrite (for_loop_and_chain (evaluate_comparison o) _ [B] [A] 0 r eq_refl).
    cbn [all_hold]. destruct r; [apply tbind_tret_right | reflexivity].
  - change (str_eqb (s "OR") (s "AND")) with false. cbn iota.
    unfold or_else. apply tbind_ext. intros r.
    rewrite (for_loop_or_chain (evaluate_comparison o) _ [B] [A] 0 r eq_refl).
    cbn [any_holds]. destruct r; [reflexivity | apply tbind_tret_right].
Qed.

Lemma test_of_joined_witness :
  Expr_test_traced
    (Expr_init (joined (s "$.role == " ++ quoted "admin") (s "OR") (s "$.count > 5")))
    test_object_extended
  = ([s "$.role == " ++ quoted "admin"; s "$.count > 5"], Ret true).
Proof.
  exact (test_of_joined (s "$.role == " ++ quoted "admin") (s "OR")
           (s "$.count > 5") test_object_extended
           (or_intror (or_introl eq_refl)) eq_refl ltac:(discriminate) eq_refl).
Defined.



(** ** Letter case *)

Lemma upper_char_idempotent (c : ascii) :
  upper_char (upper_char c) = upper_char c /\
  is_quote (upper_char c) = is_quote c.
Proof.
  destruct c as [[] [] [] [] [] [] [] []]; vm_compute; split; reflexivity.
Qed.

Lemma upper_idempotent (x : str) : upper (upper x) = upper x.
Proof.
  unfold upper. rewrite map_map. apply map_ext. intros c.
  apply upper_char_idempotent.
Qed.

Lemma upper_slice_upper (x : str) (i j : nat) :
  upper (slice (upper x) i j) = upper (slice x i j).
Proof. now rewrite upper_slice, upper_idempotent, <- upper_slice. Qed.

Lemma upper_length (x : str) : length (upper x) = length x.
Proof. unfold upper. apply length_map. Qed.

Lemma split_step_upper (x : str) (i : nat) (c : ascii) (st st' : split_state) :
  same_cuts st st' ->
  same_cuts (split_step x i c st) (split_step (upper x) i (upper_char c) st').
Proof.
  intros (Hp & Ho & Hl & Hq). unfold split_step.
  rewrite (proj2 (upper_char_idempotent c)), Hq, Hl, Ho, Hp.
  rewrite upper_length, !upper_slice_upper, <- !upper_slice.
  destruct (negb _ && _);
    [destruct (str_eqb _ _); [|destruct (str_eqb _ _)]|];
    repeat split; cbn [parts operators last_pos in_quotes];
    rewrite ?map_app; reflexivity.
Qed.

Lemma split_loop_upper (x : str) :
  forall rest i st st',
    same_cuts st st' ->
    same_cuts (split_loop x i rest st) (split_loop (upper x) i (upper rest) st').
Proof.
  induction rest as [|c rest IH]; intros i st st' H; cbn [upper map split_loop].
  - exact H.
  - apply IH, split_step_upper, H.
Qed.

Lemma split_upper (x : str) :
  split_on_logical_ops (upper x) =
  (map upper (fst (split_on_logical_ops x)), snd (split_on_logical_ops x)).
Proof.
  unfold split_on_logical_ops. cbn [fst snd].
  destruct (split_loop_upper x x 0 split_start split_start)
    as (Hp & Ho & Hl & _); [repeat split|].
  rewrite Hp, Ho, Hl, map_app. cbn [map]. unfold slice_from, upper.
  now rewrite skipn_map.
Qed.

(** X12. The splitter does not see the letter case, as the docstring of
    [test] says: two texts that differ in letter case only are cut at the
    same places, into the same connectors and into clauses that differ in
    letter case only. *)
Theorem splitter_ignores_letter_case (x y : str) :
  upper x = upper y ->
  snd (split_on_logical_ops x) = snd (split_on_logical_ops y) /\
  map upper (fst (split_on_logical_ops x)) =
  map upper (fst (split_on_logical_ops y)).
Proof.
  intros H. pose proof (split_upper x) as Hx. pose proof (split_upper y) as Hy.
  rewrite H, Hy in Hx. injection Hx as Hp Ho. now split.
Qed.

Lemma splitter_ignores_letter_case_witness :
  snd (split_on_logical_ops (s "$.a == 1 and $.b == 2")) = [s "AND"] /\
  map upper (fst (split_on_logical_ops (s "$.a == 1 and $.b == 2"))) =
  [s "$.A == 1"; s "$.B == 2"].
Proof.
  exact (splitter_ignores_letter_case (s "$.a == 1 and $.b == 2")
           (s "$.A == 1 AND $.B == 2") eq_refl).
Defined.

(** ** Literals *)

Lemma digit_char (c : ascii) :
  is_digit c = true ->
  is_word c = true /\ (is_alpha c || Ascii.eqb c "_") = false /\
  Ascii.eqb c "+" = false.
Proof.
  destruct c as [[] [] [] [] [] [] [] []]; vm_compute; intros H;
    try discriminate H; repeat split.
Qed.

Lemma word_value_text (t : str) :
  t <> [] -> forallb is_word t = true -> is_value_text t = true.
Proof.
  intros Hne Hw.
  assert (Hall : forall c, In c t -> is_word c = true)
    by (now apply forallb_forall).
  unfold is_value_text, unpadded. apply andb_true_intro. split.
  - destruct t as [|c rest]; [congruence|].
    destruct (rev (c :: rest)) as [|l r] eqn:E.
    + apply (f_equal (@rev ascii)) in E. now rewrite rev_involutive in E.
    + assert (Hl : In l (c :: rest)) by (apply in_rev; rewrite E; now left).
      destruct (word_char c (Hall c (or_introl eq_refl))) as (-> & _).
      destruct (word_char l (Hall l Hl)) as (-> & _). reflexivity.
  - apply (forallb_impl is_word); [|exact Hw]. intros c Hc. now apply word_char.
Qed.

Lemma partition_at_digits (d : str) :
  forallb is_digit d = true -> partition_at "+" d = None.
Proof.
  induction d as [|c d IH]; cbn [forallb partition_at]; [reflexivity|].
  intros H. apply andb_prop in H as [Hc Hd].
  destruct (digit_char c Hc) as (_ & _ & ->). now rewrite (IH Hd).
Qed.

Lemma decimal_value_zeros (d : str) :
  forallb (Ascii.eqb "0") d = true -> decimal_value d = 0%Z.
Proof.
  unfold decimal_value. induction d as [|c d IH]; cbn [forallb fold_left];
    [reflexivity|].
  intros H. apply andb_prop in H as [Hc Hd]. apply Ascii.eqb_eq in Hc.
  subst c. exact (IH Hd).
Qed.

Lemma int_literal_plain (d : str) :
  is_plain_integer d = true -> int_literal d = Ret (decimal_value d).
Proof.
  unfold is_plain_integer, int_literal. intros H.
  apply andb_prop in H as [H Hzero]. apply andb_prop in H as [H Hlen].
  apply andb_prop in H as [Hne Hd].
  destruct d as [|c d]; [discriminate Hne|]. rewrite Hd. cbn [negb].
  apply Nat.leb_le in Hlen.
  replace (max_str_digits <? length (c :: d)) with false
    by (symmetry; apply Nat.ltb_ge; exact Hlen).
  destruct (forallb (Ascii.eqb "0") (c :: d)) eqn:Z.
  - now rewrite decimal_value_zeros.
  - cbn [orb hd] in Hzero. apply negb_true_iff in Hzero. now rewrite Hzero.
Qed.

Lemma digit_is_no_point (c : ascii) :
  is_digit c = true -> Ascii.eqb c "." = false.
Proof.
  destruct c as [[] [] [] [] [] [] [] []]; vm_compute; intros H;
    try discriminate H; reflexivity.
Qed.

Lemma number_literal_digits (d : str) :
  forallb is_digit d = true ->
  number_literal d = obind (int_literal d) (fun z => Ret (VInt z)).
Proof.
  intros H. unfold number_literal.
  replace (partition_at "." d) with (@None (str * str)); [reflexivity|].
  symmetry. induction d as [|c d IH]; cbn [forallb partition_at] in *;
    [reflexivity|].
  apply andb_prop in H as [Hc Hd].
  now rewrite (digit_is_no_point c Hc), (IH Hd).
Qed.

Lemma plain_integer_word (d : str) :
  is_plain_integer d = true -> d <> [] /\ forallb is_word d = true.
Proof.
  unfold is_plain_integer. intros H.
  apply andb_prop in H as [H _]. apply andb_prop in H as [H _].
  apply andb_prop in H as [Hne Hd]. split; [now destruct d|].
  apply (forallb_impl is_digit); [|exact Hd]. intros c Hc. now apply digit_char.
Qed.

Lemma py_eval_plain_integer (d : str) (globals locals : namespace) :
  is_plain_integer d = true ->
  py_eval d globals locals = Ret (VInt (decimal_value d)) /\
  py_eval ("-"%char :: d) globals locals = Ret (VInt (- decimal_value d)).
Proof.
  intros H. pose proof (int_literal_plain d H) as Hint.
  destruct (plain_integer_word d H) as [Hne Hw].
  assert (Hd : forallb is_digit d = true).
  { unfold is_plain_integer in H. apply andb_prop in H as [H _].
    apply andb_prop in H as [H _]. now apply andb_prop in H as [_ H]. }
  assert (Hp : forallb is_printable d = true)
    by (apply (forallb_impl is_word); [intros c Hc; now apply word_char | exact Hw]).
  split; unfold py_eval.
  - rewrite Hp. cbn [negb]. destruct d as [|c d]; [congruence|].
    cbn [forallb] in Hd, Hw. apply andb_prop in Hd as [Hc Hd'].
    apply andb_prop in Hw as [Hwc _].
    destruct (word_char c Hwc) as (_ & _ & _ & -> & -> & ->).
    cbn [is_identifier]. destruct (digit_char c Hc) as (_ & -> & _).
    cbn [andb].
    rewrite partition_at_digits by (cbn [forallb]; now rewrite Hc, Hd').
    rewrite number_literal_digits by (cbn [forallb]; now rewrite Hc, Hd').
    now rewrite Hint.
  - cbn [forallb]. rewrite Hp. change (is_printable "-") with true.
    cbn [andb negb]. change (is_quote "-") with false.
    change (is_identifier ("-"%char :: d)) with false.
    change (Ascii.eqb "-" "=") with false. change (Ascii.eqb "-" "-") with true.
    cbn iota. rewrite number_literal_digits by exact Hd. now rewrite Hint.
Qed.

(** X13. A decimal integer on the right of a clause is compared as a
    number, with or without a minus sign in front: against a field that is
    the integer [n], [>] and [<] are the order of the integers and [==] is
    their equality, not a comparison of texts. *)
Theorem integer_literal_is_a_number (o : pyobj) (field d : str) (n : Z) :
  is_field field = true -> is_plain_integer d = true ->
  pydash_get o field = Ret (VInt n) ->
  evaluate_comparison o (clause field (s ">") d)
    = Ret (n >? decimal_value d)%Z /\
  evaluate_comparison o (clause field (s "<") d)
    = Ret (n <? decimal_value d)%Z /\
  evaluate_comparison o (clause field (s "==") d)
    = Ret (n =? decimal_value d)%Z /\
  evaluate_comparison o (clause field (s ">") ("-"%char :: d))
    = Ret (n >? - decimal_value d)%Z.
Proof.
  intros Hf Hd Hget.
  destruct (plain_integer_word d Hd) as [Hne Hw].
  assert (Hv : is_value_text d = true) by now apply word_value_text.
  assert (Hv' : is_value_text ("-"%char :: d) = true).
  { unfold is_value_text in *. apply andb_prop in Hv as [Hu Hn].
    apply andb_true_intro. split; [|cbn [forallb]; now rewrite Hn].
    unfold unpadded in *. destruct d as [|c d]; [congruence|].
    cbn [rev] in *. destruct (rev d ++ [c]) as [|l r] eqn:E; [discriminate Hu|].
    cbn [app]. apply andb_prop in Hu as [_ Hl]. now rewrite Hl. }
  destruct (py_eval_plain_integer d [(s "__builtins__", VDict [])] [] Hd)
    as [E1 E2].
  repeat split;
    rewrite evaluate_comparison_clause;
    try assumption; try (cbn; tauto);
    unfold evaluated_value_of; rewrite ?E1, ?E2; cbn [obind];
    rewrite Hget; reflexivity.
Qed.

Lemma integer_literal_is_a_number_witness :
  evaluate_comparison test_object (s "$.count > 9") = Ret true /\
  evaluate_comparison test_object (s "$.count < 9") = Ret false /\
  evaluate_comparison test_object (s "$.count == 9") = Ret false /\
  evaluate_comparison test_object (s "$.count > -9") = Ret true.
Proof.
  exact (integer_literal_is_a_number test_object (s "count") (s "9") 10
           eq_refl eq_refl eq_refl).
Defined.

Lemma quote_char (q : ascii) :
  is_quote q = true ->
  Ascii.eqb q backslash = false /\ is_printable q = true /\
  is_space q = false /\ is_not_newline q = true.
Proof.
  destruct q as [[] [] [] [] [] [] [] []]; vm_compute; intros H;
    try discriminate H; repeat split.
Qed.

Lemma printable_char (c : ascii) :
  is_printable c = true -> is_not_newline c = true.
Proof.
  destruct c as [[] [] [] [] [] [] [] []]; vm_compute; intros H;
    try discriminate H; reflexivity.
Qed.

Lemma string_literal_plain (q : ascii) (t : str) :
  Ascii.eqb q backslash = false -> is_plain_text q t = true ->
  string_literal q (t ++ [q]) = Ret t.
Proof.
  intros Hq. unfold is_plain_text.
  induction t as [|c t IH]; cbn [app string_literal forallb].
  - intros _. now rewrite Hq, Ascii.eqb_refl.
  - intros H. apply andb_prop in H as [Hc Ht].
    apply andb_prop in Hc as [Hc Hcq]. apply andb_prop in Hc as [_ Hcb].
    apply negb_true_iff in Hcq, Hcb. rewrite Hcb, Hcq, (IH Ht). reflexivity.
Qed.

Lemma plain_text_printable (q : ascii) (t : str) :
  is_plain_text q t = true -> forallb is_printable t = true.
Proof.
  unfold is_plain_text. intros H. apply forallb_forall. intros c Hc.
  pose proof (proj1 (forallb_forall _ _) H c Hc) as Hc'. cbn beta in Hc'.
  apply andb_prop in Hc' as [Hc' _]. now apply andb_prop in Hc' as [Hc' _].
Qed.

Lemma forallb_snoc (p : ascii -> bool) (t : str) (c : ascii) :
  forallb p (t ++ [c]) = forallb p t && p c.
Proof. rewrite forallb_app. cbn. now rewrite andb_true_r. Qed.

(** X14. A string literal on the right of a clause, in double or in single
    quotes, is compared as the text between the quotes, taken as it is,
    when that text is printable and holds neither a backslash nor the
    quote itself. *)
Theorem string_literal_is_its_text (o : pyobj) (field operator t : str) (q : ascii) :
  is_field field = true -> In operator four_operators ->
  is_quote q = true -> is_plain_text q t = true ->
  evaluated_value_of (q :: t ++ [q]) = Ret (VStr t) /\
  evaluate_comparison o (clause field operator (q :: t ++ [q])) =
  obind (pydash_get o field) (fun field_value =>
    apply_operator operator field_value (VStr t)).
Proof.
  intros Hf Hop Hq Ht.
  destruct (quote_char q Hq) as (Hqb & Hqp & Hqs & Hqn).
  pose proof (plain_text_printable q t Ht) as Hp.
  assert (E : evaluated_value_of (q :: t ++ [q]) = Ret (VStr t)).
  { unfold evaluated_value_of, py_eval. cbn [forallb].
    rewrite forallb_snoc, Hp, Hqp. cbn [andb negb]. rewrite Hq.
    now rewrite (string_literal_plain q t Hqb Ht). }
  split; [exact E|].
  rewrite evaluate_comparison_clause; try assumption; [now rewrite E|].
  unfold is_value_text, unpadded. cbn [rev]. rewrite rev_app_distr.
  cbn [rev app]. rewrite Hqs. cbn [negb andb forallb].
  rewrite forallb_snoc, Hqn, andb_true_r.
  apply (forallb_impl is_printable); [apply printable_char | exact Hp].
Qed.

Lemma string_literal_is_its_text_witness :
  evaluated_value_of (squote :: s "some value" ++ [squote])
    = Ret (VStr (s "some value")) /\
  evaluate_comparison test_object
    (clause (s "foo") (s "==") (squote :: s "some value" ++ [squote]))
    = Ret true.
Proof.
  exact (string_literal_is_its_text test_object (s "foo") (s "==")
           (s "some value") squote eq_refl (or_introl eq_refl) eq_refl eq_refl).
Defined.

Lemma ne_clause (o : pyobj) (field value : str) :
  is_field field = true -> is_value_text value = true ->
  evaluate_comparison o (clause field (s "!=") value) =
  obind (evaluate_comparison o (clause field (s "==") value))
    (fun b => Ret (negb b)).
Proof.
  intros Hf Hv.
  rewrite !evaluate_comparison_clause; try assumption; try (cbn; tauto).
  destruct (evaluated_value_of value) as [ev| |]; cbn [obind];
    try reflexivity.
  destruct (pydash_get o field) as [fv| |]; reflexivity.
Qed.

(** X15. [!=] is the complement of [==]: on the same field and the same
    value the one clause returns a boolean exactly when the other returns
    the opposite one, and the one raises exactly what the other raises. *)
Theorem ne_is_the_complement_of_eq (o : pyobj) (field value : str) :
  is_field field = true -> is_value_text value = true ->
  (forall b,
     evaluate_comparison o (clause field (s "==") value) = Ret b <->
     evaluate_comparison o (clause field (s "!=") value) = Ret (negb b)) /\
  (forall e,
     evaluate_comparison o (clause field (s "==") value) = Raise e <->
     evaluate_comparison o (clause field (s "!=") value) = Raise e).
Proof.
  intros Hf Hv. rewrite (ne_clause o field value Hf Hv).
  destruct (evaluate_comparison o (clause field (s "==") value)) as [b'|e'|];
    cbn [obind]; split; intros x; split; try discriminate; try easy.
  - now intros [= ->].
  - intros [= H]. f_equal. now destruct x, b'.
Qed.

Lemma ne_is_the_complement_of_eq_witness :
  evaluate_comparison test_object (s "$.count != 10") = Ret false.
Proof.
  destruct (ne_is_the_complement_of_eq test_object (s "count") (s "10")
              eq_refl eq_refl) as [H _].
  exact (proj1 (H true) eq_refl).
Defined.

(** ** The first draft *)

(** A plain literal is evaluated to its value among any names. *)
Lemma py_eval_plain_literal (value : str) (v : pyobj) (globals locals : namespace) :
  plain_literal value v -> py_eval value globals locals = Ret v.
Proof.
  intros [ | | | d Hd | d Hd | q t Hq Ht]; try reflexivity.
  - apply py_eval_plain_integer, Hd.
  - apply py_eval_plain_integer, Hd.
  - destruct (quote_char q Hq) as (Hqb & Hqp & _ & _).
    pose proof (plain_text_printable q t Ht) as Hp.
    unfold py_eval. cbn [forallb].
    rewrite forallb_snoc, Hp, Hqp. cbn [andb negb]. rewrite Hq.
    now rewrite (string_literal_plain q t Hqb Ht).
Qed.

(** The name [match] of the first draft is no plain literal. *)
Lemma plain_literal_is_not_match (value : str) (v : pyobj) :
  plain_literal value v -> str_eqb value (s "match") = false.
Proof.
  intros H. destruct (str_eqb value (s "match")) eqn:E; [|reflexivity].
  apply str_eqb_eq in E. subst value. exfalso.
  inversion H as [ | | | d Hd | d Hd | q t Hq Ht E]; subst; discriminate.
Qed.

(** X16. The first draft and the class agree on one clause with a plain
    literal: on a text without keyword, a text that the pattern does not
    match raises the same format error in both, and when the value is one
    of the three constants, a decimal integer or a quoted text, both look
    the field up and apply the operator to the value of that literal. *)
Theorem first_draft_agrees (expr : str) (obj : pyobj) :
  contains (s " AND ") (upper expr) = false ->
  contains (s " OR ") (upper expr) = false ->
  (re_match (strip expr) = None ->
   evaluate_expression expr obj = Raise (invalid_format expr) /\
   Expr_test (Expr_init expr) obj = Raise (invalid_format expr)) /\
  (forall field operator value v,
     re_match (strip expr) = Some (field, operator, value) ->
     plain_literal value v ->
     parse_expression expr = Ret (field, operator, v) /\
     evaluate_expression expr obj =
       obind (pydash_get obj field) (fun field_value =>
         apply_operator operator field_value v) /\
     Expr_test (Expr_init expr) obj =
       obind (pydash_get obj field) (fun field_value =>
         apply_operator operator field_value v)).
Proof.
  intros HA HO.
  assert (E : Expr_test (Expr_init expr) obj = evaluate_comparison obj expr).
  { unfold Expr_test, Expr_test_traced, test_with. cbn [args Expr_init].
    now rewrite HA, HO. }
  rewrite E. unfold evaluate_expression, parse_expression, evaluate_comparison.
  split.
  - intros ->. split; reflexivity.
  - intros field operator value v -> Hv.
    rewrite (plain_literal_is_not_match value v Hv).
    unfold evaluated_value_of.
    rewrite !(py_eval_plain_literal value v _ _ Hv). cbn [obind fst snd].
    repeat split.
Qed.

Lemma first_draft_agrees_witness :
  evaluate_expression (s "$.nested.field == 123") test_object = Ret true /\
  Expr_test (Expr_init (s "$.nested.field == 123")) test_object = Ret true.
Proof.
  destruct (first_draft_agrees (s "$.nested.field == 123") test_object
              eq_refl eq_refl) as [_ H].
  destruct (H (s "nested.field") (s "==") (s "123") (VInt 123) eq_refl
              (plain_integer (s "123") eq_refl)) as (_ & H1 & H2).
  split; [exact H1 | exact H2].
Defined.

(** X17. The first draft evaluates the value among its own local
    variables: the words [field], [operator] and [expr] on the right of a
    clause are read as the field, the operator and the text of that very
    clause, where [Expr.test] reads each as a bare word. *)
Theorem first_draft_reads_its_locals (field operator : str) :
  is_field field = true -> In operator four_operators ->
  parse_expression (clause field operator (s "field"))
    = Ret (field, operator, VStr field) /\
  parse_expression (clause field operator (s "operator"))
    = Ret (field, operator, VStr operator) /\
  parse_expression (clause field operator (s "expr"))
    = Ret (field, operator, VStr (clause field operator (s "expr"))) /\
  evaluated_value_of (s "field") = Ret (VStr (s "field")).
Proof.
  intros Hf Hop. apply andb_prop in Hf as [Hf1 Hf2].
  assert (Hne : field <> []) by (destruct field; [discriminate Hf1|discriminate]).
  repeat split; try reflexivity; unfold parse_expression;
    rewrite strip_clause by reflexivity;
    unfold clause; rewrite re_match_clause;
    try assumption; try discriminate; try reflexivity.
Qed.

Lemma first_draft_reads_its_locals_witness :
  evaluate_expression (s "$.foo == field") (VDict [(s "foo", VStr (s "foo"))])
    = Ret true /\
  Expr_test (Expr_init (s "$.foo == field")) (VDict [(s "foo", VStr (s "foo"))])
    = Ret false.
Proof.
  split; [|reflexivity].
  destruct (first_draft_reads_its_locals (s "foo") (s "==") eq_refl
              (or_introl eq_refl)) as [H _].
  unfold evaluate_expression.
  change (s "$.foo == field") with (clause (s "foo") (s "==") (s "field")).
  rewrite H. reflexivity.
Defined.

(** ** White space around a clause *)

Lemma lstrip_blank (w y : str) : is_blank w = true -> lstrip (w ++ y) = lstrip y.
Proof.
  unfold is_blank. induction w as [|c w IH]; cbn [app forallb lstrip];
    [reflexivity|].
  intros H. apply andb_prop in H as [-> Hw]. exact (IH Hw).
Qed.

Lemma is_blank_rev (w : str) : is_blank (rev w) = is_blank w.
Proof.
  unfold is_blank. induction w as [|c w IH]; [reflexivity|].
  cbn [rev forallb]. rewrite forallb_app, IH. cbn [forallb].
  now rewrite andb_true_r, andb_comm.
Qed.

Lemma lstrip_all_blank (w : str) : is_blank w = true -> lstrip w = [].
Proof.
  intros H. rewrite <- (app_nil_r w). now rewrite lstrip_blank.
Qed.

Lemma lstrip_cases (x : str) :
  lstrip x = [] \/ (lstrip x <> [] /\ stops is_space (lstrip x)).
Proof.
  induction x as [|c x IH]; cbn [lstrip]; [now left|].
  destruct (is_space c) eqn:E; [exact IH|]. right. split; [discriminate|exact E].
Qed.

Lemma strip_padded (before c after : str) :
  is_blank before = true -> is_blank after = true ->
  strip (before ++ c ++ after) = strip c.
Proof.
  intros Hb Ha. unfold strip, rstrip. rewrite lstrip_blank by exact Hb.
  f_equal.
  assert (H : forall y, lstrip (y ++ after) = lstrip y ++ after \/
                        (lstrip (y ++ after) = lstrip after /\ lstrip y = [])).
  { induction y as [|d y IH]; cbn [app lstrip]; [now right|].
    destruct (is_space d); [exact IH | now left]. }
  destruct (H c) as [E|[E E']].
  - rewrite E. destruct (lstrip_cases c) as [N|[N S]].
    + rewrite N. cbn [app rev]. rewrite lstrip_all_blank; [reflexivity|].
      now rewrite is_blank_rev.
    + rewrite rev_app_distr. apply lstrip_blank. now rewrite is_blank_rev.
  - rewrite E, E'. rewrite (lstrip_all_blank after Ha). reflexivity.
Qed.

(** X18. White space around a clause does not count: the splitter leaves
    it on the clauses, and [evaluate_comparison] reads a padded clause as
    the clause itself whenever the pattern matches it. *)
Theorem padding_is_ignored (o : pyobj) (before c after : str) :
  is_blank before = true -> is_blank after = true ->
  re_match (strip c) <> None ->
  evaluate_comparison o (before ++ c ++ after) = evaluate_comparison o c.
Proof.
  intros Hb Ha Hm. unfold evaluate_comparison.
  rewrite (strip_padded before c after Hb Ha).
  destruct (re_match (strip c)); [reflexivity | congruence].
Qed.

Lemma padding_is_ignored_witness :
  evaluate_comparison test_object (s "  $.count > 5 ") = Ret true.
Proof.
  exact (padding_is_ignored test_object (s "  ") (s "$.count > 5") (s " ")
           eq_refl eq_refl ltac:(discriminate)).
Defined.

(** X19. [OR] before [AND] is read from left to right: on three clauses cut
    as [A OR B AND C], [test] is [(A or B) and C] with the short circuit of
    Python: [B] is skipped when [A] holds, [C] when neither holds. *)
Theorem or_then_and_is_left_to_right (a A B C : str) (o : pyobj) :
  split_on_logical_ops a = ([A; B; C], [s "OR"; s "AND"]) ->
  Expr_test_traced (Expr_init a) o =
  let evaluate := evaluate_comparison o in
  r1 <- call evaluate A ;;
  r2 <- (if r1 then tret true else call evaluate B) ;;
  if r2 then call evaluate C else tret false.
Proof.
  intros H. rewrite (test_by_split a A [B; C] _ o H). cbv zeta.
  cbn [for_loop]. unfold loop_body, next_is_or, call_part, call, tbind, tret.
  change (str_eqb (s "OR") (s "AND")) with false.
  change (str_eqb (s "OR") (s "OR")) with true.
  change (str_eqb (s "AND") (s "AND")) with true.
  change (str_eqb (s "AND") (s "OR")) with false.
  cbn.
  destruct (evaluate_comparison o A) as [[|]| |]; cbn; try reflexivity;
    [| destruct (evaluate_comparison o B) as [[|]| |]; cbn; try reflexivity ];
    destruct (evaluate_comparison o C) as [[|]| |]; reflexivity.
Qed.

Lemma or_then_and_is_left_to_right_witness :
  Expr_test_traced
    (Expr_init (s "$.count > 5 OR nonsense AND $.active == True")) test_object
  = ([s "$.count > 5"; s "$.active == True"], Ret true).
Proof.
  exact (or_then_and_is_left_to_right
           (s "$.count > 5 OR nonsense AND $.active == True")
           (s "$.count > 5") (s "nonsense") (s "$.active == True")
           test_object eq_refl).
Defined.
